(** * release-please: the GitHub host client (src/github.ts)

    A shallow embedding of the [GitHub] class: the pure helpers (the
    branch-name regular expression, label matching, tag selection), the
    calls to the hosting service as a state-and-error monad over a log of
    requests, and the properties of the release workflow built on them.

    JavaScript strings are modelled as [string]: the texts handled here
    (branch names, tag names, versions, paths) are ASCII. *)

From Stdlib Require Import String Ascii List Bool Arith NArith ZArith Lia.
From Stdlib Require Import DecimalString.
Import ListNotations.
Local Open Scope string_scope.

(** ** JavaScript string primitives *)

Module Js.

(** [s.startsWith(p)] *)
Definition startsWith (s p : string) : bool := String.prefix p s.

(** [s.slice(n)] *)
Fixpoint drop (n : nat) (s : string) : string :=
  match n, s with
  | O, _ => s
  | S n', String _ s' => drop n' s'
  | S _, EmptyString => EmptyString
  end.

(** [s.includes(sub)] *)
Fixpoint includes (s sub : string) : bool :=
  String.prefix sub s ||
  match s with
  | String _ s' => includes s' sub
  | EmptyString => false
  end.

(** [s.replace(pat, rep)] with a string pattern: the first occurrence
    only. *)
Fixpoint replace (s pat rep : string) : string :=
  if String.prefix pat s then rep ++ drop (String.length pat) s
  else match s with
       | String c s' => String c (replace s' pat rep)
       | EmptyString => EmptyString
       end.

(** [s.replace(/[class]/, '')]: a regular expression without the [g]
    flag removes the first character of the class only. *)
Fixpoint remove_first (p : ascii -> bool) (s : string) : string :=
  match s with
  | String c s' => if p c then s' else String c (remove_first p s')
  | EmptyString => EmptyString
  end.

(** [s.split(sep)] for a one-character separator. *)
Fixpoint split (sep : ascii) (s : string) : list string :=
  match s with
  | EmptyString => [EmptyString]
  | String c s' =>
      if Ascii.eqb c sep then EmptyString :: split sep s'
      else match split sep s' with
           | w :: ws => String c w :: ws
           | [] => [String c EmptyString]
           end
  end.

(** [parts.join(sep)] *)
Fixpoint join (sep : string) (parts : list string) : string :=
  match parts with
  | [] => EmptyString
  | [w] => w
  | w :: ws => w ++ sep ++ join sep ws
  end.

Fixpoint repeat_char (c : ascii) (n : nat) : string :=
  match n with
  | O => EmptyString
  | S n' => String c (repeat_char c n')
  end.

(** [s.padStart(n, c)] for a one-character filler. *)
Definition padStart (n : nat) (c : ascii) (s : string) : string :=
  repeat_char c (n - String.length s) ++ s.

(** Truthiness of a [string | undefined] value: [undefined] and the empty
    string are falsy. *)
Definition truthy (o : option string) : bool :=
  match o with
  | Some s => negb (String.eqb s EmptyString)
  | None => false
  end.

(** A string argument that is [undefined] is coerced with [String(x)]. *)
Definition to_string (o : option string) : string :=
  match o with
  | Some s => s
  | None => "undefined"
  end.

Definition is_digit (c : ascii) : bool :=
  let n := nat_of_ascii c in (48 <=? n)%nat && (n <=? 57)%nat.

Definition is_alpha (c : ascii) : bool :=
  let n := nat_of_ascii c in
  ((65 <=? n)%nat && (n <=? 90)%nat) || ((97 <=? n)%nat && (n <=? 122)%nat).

(** [\w] *)
Definition is_word (c : ascii) : bool :=
  is_alpha c || is_digit c || Ascii.eqb c "_"%char.

(** [.] matches anything but a line terminator. *)
Definition is_dot (c : ascii) : bool :=
  negb (Ascii.eqb c "010"%char || Ascii.eqb c "013"%char).

(** [String(n)] for a non-negative integer. *)
Definition number_to_string (n : N) : string :=
  NilZero.string_of_uint (N.to_uint n).

Fixpoint all_chars (p : ascii -> bool) (s : string) : bool :=
  match s with
  | EmptyString => true
  | String c s' => p c && all_chars p s'
  end.

Fixpoint any_char (p : ascii -> bool) (s : string) : bool :=
  match s with
  | EmptyString => false
  | String c s' => p c || any_char p s'
  end.

End Js.

(** ** A backtracking matcher for the regular expressions of the source

    Only the constructs that [VERSION_FROM_BRANCH_RE] uses: literals,
    greedy [c*] over a character class, greedy [r?], concatenation,
    capturing groups and the end anchor.  The matcher tries the
    alternatives in the order of a backtracking engine (longest first for
    the greedy operators), so the captures are the ones [String.match]
    reports. *)

Module Regex.

Inductive regex : Type :=
| Lit (s : string)
| Class (p : ascii -> bool)
| Star (p : ascii -> bool)
| Opt (r : regex)
| Cat (r1 r2 : regex)
| Group (r : regex)
| Eol.

Definition captures := list string.
Definition cont := string -> captures -> option captures.

Fixpoint star (p : ascii -> bool) (s : string)
         (k : string -> option captures) : option captures :=
  match s with
  | String c s' =>
      if p c then
        match star p s' k with
        | Some r => Some r
        | None => k s
        end
      else k s
  | EmptyString => k s
  end.

Definition consumed (before after : string) : string :=
  String.substring 0 (String.length before - String.length after) before.

Fixpoint exec (r : regex) (s : string) (caps : captures) (k : cont)
  : option captures :=
  match r with
  | Lit l =>
      if String.prefix l s then k (Js.drop (String.length l) s) caps
      else None
  | Class p =>
      match s with
      | String c s' => if p c then k s' caps else None
      | EmptyString => None
      end
  | Star p => star p s (fun s' => k s' caps)
  | Opt r1 =>
      match exec r1 s caps k with
      | Some res => Some res
      | None => k s caps
      end
  | Cat r1 r2 => exec r1 s caps (fun s' caps' => exec r2 s' caps' k)
  | Group r1 =>
      exec r1 s caps (fun s' caps' => k s' (caps' ++ [consumed s s'])%list)
  | Eol =>
      match s with
      | EmptyString => k s caps
      | String _ _ => None
      end
  end.

(** [s.match(re)] for an expression that starts with [^]: the match is
    tried at index 0 only; the result lists the groups in order. *)
Definition match_anchored (r : regex) (s : string) : option captures :=
  exec r s [] (fun _ caps => Some caps).

Fixpoint seq (rs : list regex) : regex :=
  match rs with
  | [] => Lit EmptyString
  | [r] => r
  | r :: rs' => Cat r (seq rs')
  end.

End Regex.

(** [VERSION_FROM_BRANCH_RE]: anchored at both ends; any owner text up to
    [:release], an optional [-], group 1 = a greedy run of [\w], [-] and
    [.], a [-], group 2 = [v], one digit and the rest of the line. *)
Definition branch_class (c : ascii) : bool :=
  Js.is_word c || Ascii.eqb c "-"%char || Ascii.eqb c "."%char.

Definition VERSION_FROM_BRANCH_RE : Regex.regex :=
  Regex.seq
    [ Regex.Star Js.is_dot;
      Regex.Lit ":release";
      Regex.Opt (Regex.Lit "-");
      Regex.Group (Regex.Star branch_class);
      Regex.Lit "-";
      Regex.Group (Regex.seq [Regex.Lit "v"; Regex.Class Js.is_digit;
                              Regex.Star Js.is_dot]);
      Regex.Eol ].

(** [label.match(VERSION_FROM_BRANCH_RE)], as the pair [(match[1], match[2])]. *)
Definition match_branch (label : string) : option (string * string) :=
  match Regex.match_anchored VERSION_FROM_BRANCH_RE label with
  | Some [g1; g2] => Some (g1, g2)
  | _ => None
  end.

(** ** The [semver] package (strict mode)

    [semver.valid] and [semver.rcompare] belong to the npm package
    [semver], which github.ts imports.  They are modelled from the
    package's grammar for a full version:
    an optional [v], three numeric identifiers separated by dots, an
    optional [-] and dot-separated pre-release identifiers, an optional
    [+] and dot-separated build identifiers.  A numeric identifier is [0]
    or a digit string without a leading zero; any other identifier is made
    of letters, digits and hyphens and holds at least one letter or
    hyphen.  Numeric pre-release identifiers are compared as exact
    integers.  White space around a version, which git allows neither in
    tag names nor in branch names, is not modelled. *)

Module Semver.

Inductive ident : Type :=
| INum (n : N)
| IStr (s : string).

Record SemVer : Type := mkSemVer {
  major : N;
  minor : N;
  patch : N;
  prerelease : list ident
}.

Definition MAX_LENGTH : nat := 256.
Definition MAX_SAFE_INTEGER : N := 9007199254740991.

Definition digit_value (c : ascii) : N := N.of_nat (nat_of_ascii c - 48).

Fixpoint digits_value (acc : N) (s : string) : N :=
  match s with
  | EmptyString => acc
  | String c s' => digits_value (10 * acc + digit_value c) s'
  end.

(** [0|[1-9]\d*] *)
Definition numeric_identifier (s : string) : option N :=
  match s with
  | EmptyString => None
  | String c s' =>
      if Js.all_chars Js.is_digit s then
        if Ascii.eqb c "0"%char && negb (String.eqb s' EmptyString)
        then None
        else Some (digits_value 0 s)
      else None
  end.

Definition is_ident_char (c : ascii) : bool :=
  Js.is_digit c || Js.is_alpha c || Ascii.eqb c "-"%char.

Definition is_letter_or_hyphen (c : ascii) : bool :=
  Js.is_alpha c || Ascii.eqb c "-"%char.

(** [\d*[a-zA-Z-][a-zA-Z0-9-]*] *)
Definition non_numeric_identifier (s : string) : bool :=
  Js.all_chars is_ident_char s && Js.any_char is_letter_or_hyphen s.

Definition prerelease_identifier (s : string) : option ident :=
  match numeric_identifier s with
  | Some n => Some (INum n)
  | None => if non_numeric_identifier s then Some (IStr s) else None
  end.

(** [[0-9A-Za-z-]+] *)
Definition build_identifier (s : string) : bool :=
  negb (String.eqb s EmptyString) && Js.all_chars is_ident_char s.

Fixpoint map_option {A B} (f : A -> option B) (l : list A)
  : option (list B) :=
  match l with
  | [] => Some []
  | x :: l' =>
      match f x, map_option f l' with
      | Some y, Some ys => Some (y :: ys)
      | _, _ => None
      end
  end.

(** The text before the first occurrence of [sep], and the text after it
    when there is one. *)
Fixpoint cut (sep : ascii) (s : string) : string * option string :=
  match s with
  | EmptyString => (EmptyString, None)
  | String c s' =>
      if Ascii.eqb c sep then (EmptyString, Some s')
      else let (a, b) := cut sep s' in (String c a, b)
  end.

Inductive parse_error : Type :=
| InvalidVersion
| InvalidMajor
| InvalidMinor
| InvalidPatch.

(** [new SemVer(version)]: the match against the full grammar, then the
    range check of the three numbers. *)
Definition construct (version : string) : parse_error + SemVer :=
  if (MAX_LENGTH <? String.length version)%nat then inl InvalidVersion
  else
    let body := match version with
                | String "v"%char rest => rest
                | _ => version
                end in
    let (head, build) := cut "+" body in
    let build_ok := match build with
                    | None => true
                    | Some b => forallb build_identifier (Js.split "." b)
                    end in
    let (main, pre) := cut "-" head in
    let pre_ids := match pre with
                   | None => Some []
                   | Some p => map_option prerelease_identifier (Js.split "." p)
                   end in
    match map_option numeric_identifier (Js.split "." main), pre_ids with
    | Some [ma; mi; pa], Some ids =>
        if build_ok then
          if (MAX_SAFE_INTEGER <? ma)%N then inl InvalidMajor
          else if (MAX_SAFE_INTEGER <? mi)%N then inl InvalidMinor
          else if (MAX_SAFE_INTEGER <? pa)%N then inl InvalidPatch
          else inr (mkSemVer ma mi pa ids)
        else inl InvalidVersion
    | _, _ => inl InvalidVersion
    end.

Definition show_N (n : N) : string := Js.number_to_string n.

Definition show_ident (i : ident) : string :=
  match i with
  | INum n => show_N n
  | IStr s => s
  end.

(** [SemVer.format()]: the build metadata is dropped. *)
Definition format (v : SemVer) : string :=
  show_N (major v) ++ "." ++ show_N (minor v) ++ "." ++ show_N (patch v) ++
  match prerelease v with
  | [] => EmptyString
  | ids => "-" ++ Js.join "." (map show_ident ids)
  end.

(** [semver.valid(version)]: the normalized version, or [null]. *)
Definition valid (version : string) : option string :=
  match construct version with
  | inr v => Some (format v)
  | inl _ => None
  end.

Definition cmpN (a b : N) : Z :=
  match N.compare a b with
  | Eq => 0%Z
  | Lt => (-1)%Z
  | Gt => 1%Z
  end.

(** [compareIdentifiers]: numbers before strings, numbers by value,
    strings by code unit. *)
Definition compareIdentifiers (a b : ident) : Z :=
  match a, b with
  | INum x, INum y => cmpN x y
  | INum _, IStr _ => (-1)%Z
  | IStr _, INum _ => 1%Z
  | IStr x, IStr y =>
      match String.compare x y with
      | Eq => 0%Z
      | Lt => (-1)%Z
      | Gt => 1%Z
      end
  end.

Fixpoint comparePreLoop (a b : list ident) : Z :=
  match a, b with
  | [], [] => 0%Z
  | _ :: _, [] => 1%Z
  | [], _ :: _ => (-1)%Z
  | x :: a', y :: b' =>
      let c := compareIdentifiers x y in
      if (c =? 0)%Z then comparePreLoop a' b' else c
  end.

(** [SemVer.comparePre]: a version with a pre-release comes before the
    same version without one. *)
Definition comparePre (a b : SemVer) : Z :=
  match prerelease a, prerelease b with
  | _ :: _, [] => (-1)%Z
  | [], _ :: _ => 1%Z
  | [], [] => 0%Z
  | pa, pb => comparePreLoop pa pb
  end.

Definition compareMain (a b : SemVer) : Z :=
  let c1 := cmpN (major a) (major b) in
  if negb (c1 =? 0)%Z then c1 else
  let c2 := cmpN (minor a) (minor b) in
  if negb (c2 =? 0)%Z then c2 else cmpN (patch a) (patch b).

Definition compareSemVer (a b : SemVer) : Z :=
  let c := compareMain a b in
  if negb (c =? 0)%Z then c else comparePre a b.

(** The message of the [TypeError] that the constructor throws. *)
Definition error_message (e : parse_error) (version : string) : string :=
  match e with
  | InvalidVersion => "Invalid Version: " ++ version
  | InvalidMajor => "Invalid major version"
  | InvalidMinor => "Invalid minor version"
  | InvalidPatch => "Invalid patch version"
  end.

(** [semver.compare(a, b)] is
    [new SemVer(a).compare(new SemVer(b))]: a string that is not a
    version makes the constructor throw a [TypeError]; the left result
    is its message. *)
Definition compare (a b : string) : string + Z :=
  match construct a with
  | inl e => inl (error_message e a)
  | inr va =>
      match construct b with
      | inl e => inl (error_message e b)
      | inr vb => inr (compareSemVer va vb)
      end
  end.

(** [semver.rcompare(a, b)] is [compare(b, a)]. *)
Definition rcompare (a b : string) : string + Z := compare b a.

End Semver.

(** ** Errors, outcomes and data of the hosting service *)

(** A thrown JavaScript error: its class name, the numeric [status] that
    request errors carry ([undefined] for a plain [Error]) and its
    message. *)
Record JsError : Type := mkError {
  err_name : string;
  err_status : option Z;
  err_message : string
}.

Definition HttpError (status : Z) : JsError :=
  mkError "HttpError" (Some status) EmptyString.

(** [new Error(message)] *)
Definition PlainError (message : string) : JsError :=
  mkError "Error" None message.

Definition TypeError (message : string) : JsError :=
  mkError "TypeError" None message.

(** [err.status === n] *)
Definition status_is (e : JsError) (n : Z) : bool :=
  match err_status e with
  | Some s => (s =? n)%Z
  | None => false
  end.

(** The result of running a method: a value, a thrown error, or a run that
    did not finish within the steps allowed. *)
Inductive outcome (A : Type) : Type :=
| Ok (a : A)
| Throw (e : JsError)
| OutOfFuel.
Arguments Ok {A} a.
Arguments Throw {A} e.
Arguments OutOfFuel {A}.

Record Commit : Type := mkCommit {
  commit_sha : string;
  commit_message : string;
  commit_files : list string
}.

Record CommitsResponse : Type := mkCommitsResponse {
  resp_endCursor : option string;
  resp_hasNextPage : bool;
  resp_commits : list Commit
}.

Record PullRef : Type := mkPullRef {
  ref_label : string;
  ref_ref : string
}.

Record Pull : Type := mkPull {
  pull_number : Z;
  pull_labels : list string;
  pull_head : option PullRef;
  pull_base : option PullRef;
  pull_merged_at : option string;
  pull_merge_commit_sha : option string;
  pull_body : option string
}.

Record TagItem : Type := mkTagItem {
  tag_name : string;
  tag_commit_sha : string
}.

Record GitHubTag : Type := mkGitHubTag {
  gt_name : string;
  gt_sha : option string;
  gt_version : string
}.

Record GitHubReleasePR : Type := mkGitHubReleasePR {
  rp_number : Z;
  rp_sha : option string;
  rp_version : string
}.

(** The [data] of a contents or blob response. *)
Record FileData : Type := mkFileData {
  fd_content : string;
  fd_sha : string
}.

Record GitHubFileContents : Type := mkGitHubFileContents {
  fc_sha : string;
  fc_content : string;
  fc_parsedContent : string
}.

Record TreeEntry : Type := mkTreeEntry {
  te_path : string;
  te_sha : string
}.

(** [Update] of ./updaters/update: the path, whether the file may be
    created, contents loaded earlier, and the transformation. *)
Record Update : Type := mkUpdate {
  u_path : string;
  u_create : bool;
  u_contents : option GitHubFileContents;
  updateContent : option string -> option string
}.

Record GitHubPR : Type := mkGitHubPR {
  pr_branch : string;
  pr_fork : bool;
  pr_version : string;
  pr_title : string;
  pr_body : string;
  pr_sha : string;
  pr_updates : list Update;
  pr_labels : list string
}.

Record FileChange : Type := mkFileChange {
  ch_content : string;
  ch_mode : string
}.

(** [Changes] is a [Map] from path to change: [set] on a present key
    replaces the value in place, on a new key appends. *)
Definition Changes := list (string * FileChange).

Fixpoint assoc_set {V : Type} (k : string) (v : V) (m : list (string * V))
  : list (string * V) :=
  match m with
  | [] => [(k, v)]
  | (k', v') :: m' =>
      if String.eqb k' k then (k', v) :: m'
      else (k', v') :: assoc_set k v m'
  end.

Fixpoint assoc_get {V : Type} (k : string) (m : list (string * V))
  : option V :=
  match m with
  | [] => None
  | (k', v) :: m' => if String.eqb k' k then Some v else assoc_get k m'
  end.

(** ** Requests *)

Inductive CommitQuery : Type :=
| QueryCommitsWithFiles
| QueryCommitsWithLabels.

(** The options object handed to [this.graphql]. *)
Record GraphqlOpts : Type := mkGraphqlOpts {
  g_query : CommitQuery;
  g_cursor : option string;
  g_max : nat;
  g_owner : string;
  g_path : option string;
  g_perPage : nat;
  g_repo : string;
  g_baseRef : string;
  g_url : option string;
  g_headers : list (string * string)
}.

(** The options object handed to [octokit.paginate.iterator]. *)
Record EndpointOptions : Type := mkEndpointOptions {
  e_method : string;
  e_url : string;
  e_headers : list (string * string)
}.

Record CreatePullRequestOptions : Type := mkCreatePullRequestOptions {
  upstreamOwner : string;
  upstreamRepo : string;
  cp_title : string;
  cp_branch : string;
  cp_description : string;
  cp_primary : string;
  cp_force : bool;
  cp_fork : bool;
  cp_message : string
}.

(** One entry of the request log. *)
Inductive Call : Type :=
| ReposGet (authorization : string)
| Graphql (opts : GraphqlOpts)
| Request (route : string) (params : list (string * string))
| Paginate (opts : EndpointOptions)
| CreatePullRequest (changes : Changes) (opts : CreatePullRequestOptions).

(** A call that changes the repository: the collaborator that pushes a
    branch and opens a pull request, and any request that is not a [GET]. *)
Definition mutating (c : Call) : bool :=
  match c with
  | CreatePullRequest _ _ => true
  | Request route _ => negb (String.prefix "GET " route)
  | ReposGet _ | Graphql _ | Paginate _ => false
  end.

(** The hosting service and the pull-request collaborator: each answer may
    depend on the requests made so far.  [graphql_commits] stands for the
    query followed by [graphqlToCommits] of ./graphql-to-commits. *)
Record Host : Type := mkHost {
  repos_get : list Call -> JsError + string;
  graphql_commits : list Call -> GraphqlOpts -> JsError + CommitsResponse;
  pulls_list : list Call -> string -> JsError + list Pull;
  tags_list : list Call -> JsError + list (list TagItem);
  contents_get : list Call -> string -> string -> JsError + FileData;
  tree_get : list Call -> string -> JsError + list TreeEntry;
  blob_get : list Call -> string -> JsError + FileData;
  pull_patch : list Call -> Z -> JsError + unit;
  createPullRequest : list Call -> Changes -> CreatePullRequestOptions
                      -> JsError + Z
}.

(** ** The instance and the module state *)

(** The injected [octokitAPIs], named by a handle. *)
Inductive OctokitAPIs : Type :=
| InjectedAPIs (handle : nat).

Record GitHubOptions : Type := mkGitHubOptions {
  o_defaultBranch : option string;
  o_token : option string;
  o_owner : string;
  o_repo : string;
  o_apiUrl : option string;
  o_proxyKey : option string;
  o_octokitAPIs : option OctokitAPIs
}.

Record GitHub : Type := mkGitHub {
  defaultBranch : option string;
  token : option string;
  owner : string;
  repo : string;
  apiUrl : string;
  proxyKey : option string;
  apis : option OctokitAPIs
}.

(** [`${this.proxyKey ? '' : 'token '}${this.token}`] *)
Definition authorization (this : GitHub) : string :=
  (if Js.truthy (proxyKey this) then EmptyString else "token ")
  ++ Js.to_string (token this).

(** [constructor(options)], with the module-level variable [probotMode]
    passed in and out: the branch for injected APIs assigns it. *)
Definition constructor (options : GitHubOptions) (probotMode : bool)
  : GitHub * bool :=
  let this :=
    mkGitHub (o_defaultBranch options) (o_token options) (o_owner options)
             (o_repo options)
             (if Js.truthy (o_apiUrl options)
              then Js.to_string (o_apiUrl options)
              else "https://api.github.com")
             (o_proxyKey options) (o_octokitAPIs options) in
  match o_octokitAPIs options with
  | None => (this, probotMode)
  | Some _ => (this, true)
  end.

(** What a method runs in: the module-level [probotMode], the receiver
    (its [defaultBranch] is assigned by [getDefaultBranch]) and the log of
    requests. *)
Record World : Type := mkWorld {
  probotMode : bool;
  this : GitHub;
  log : list Call
}.

Definition M (A : Type) : Type := World -> outcome A * World.

Definition ret {A} (a : A) : M A := fun w => (Ok a, w).

Definition bind {A B} (m : M A) (f : A -> M B) : M B :=
  fun w =>
    match m w with
    | (Ok a, w') => f a w'
    | (Throw e, w') => (Throw e, w')
    | (OutOfFuel, w') => (OutOfFuel, w')
    end.

Definition throw {A} (e : JsError) : M A := fun w => (Throw e, w).

Definition out_of_fuel {A} : M A := fun w => (OutOfFuel, w).

(** [try { m } catch (err) { handler(err) }] *)
Definition try_catch {A} (m : M A) (handler : JsError -> M A) : M A :=
  fun w =>
    match m w with
    | (Throw e, w') => handler e w'
    | r => r
    end.

Definition get_this : M GitHub := fun w => (Ok (this w), w).

Definition get_probotMode : M bool := fun w => (Ok (probotMode w), w).

Definition set_defaultBranch (b : string) : M unit :=
  fun w =>
    let t := this w in
    (Ok tt,
     mkWorld (probotMode w)
             (mkGitHub (Some b) (token t) (owner t) (repo t) (apiUrl t)
                       (proxyKey t) (apis t))
             (log w)).

(** Perform a request: the answer is computed from the log so far, then the
    call is appended to the log. *)
Definition perform {A} (c : Call) (answer : list Call -> JsError + A) : M A :=
  fun w =>
    let w' := mkWorld (probotMode w) (this w) (log w ++ [c])%list in
    match answer (log w) with
    | inl e => (Throw e, w')
    | inr a => (Ok a, w')
    end.

Declare Scope js_scope.
Delimit Scope js_scope with js.
Notation "x <- m ;; k" := (bind m (fun x => k))
  (at level 61, m at next level, right associativity) : js_scope.
Notation "m ;;; k" := (bind m (fun _ => k))
  (at level 61, right associativity) : js_scope.
Local Open Scope js_scope.

(** ** The methods of [GitHub] *)

(** [hasAllLabels(labelsA, labelsB)]: a flag cleared by every label of
    [labelsA] that [labelsB] lacks. *)
Definition hasAllLabels (labelsA labelsB : list string) : bool :=
  fold_left
    (fun hasAll label =>
       if negb (existsb (String.eqb label) labelsB) then false else hasAll)
    labelsA true.

(** The label loop of [findOpenReleasePRs]: the flag starts [false], is set
    by a label that is present and cleared, ending the loop, by one that is
    absent. *)
Fixpoint open_labels_loop (observedLabels labels : list string)
         (hasAllLabels : bool) : bool :=
  match labels with
  | [] => hasAllLabels
  | expectedLabel :: rest =>
      if existsb (String.eqb expectedLabel) observedLabels
      then open_labels_loop observedLabels rest true
      else false
  end.

(** [!pull.base || pull.base.label !== baseLabel] *)
Definition off_base (pull : Pull) (baseLabel : string) : bool :=
  match pull_base pull with
  | None => true
  | Some b => negb (String.eqb (ref_label b) baseLabel)
  end.

(** The loop of [findOpenReleasePRs] over the listed pulls. *)
Fixpoint open_release_loop (baseLabel : string) (labels : list string)
         (pulls : list Pull) (openReleasePRs : list Pull) : list Pull :=
  match pulls with
  | [] => openReleasePRs
  | pull :: rest =>
      if off_base pull baseLabel
      then open_release_loop baseLabel labels rest openReleasePRs
      else if open_labels_loop (pull_labels pull) labels false
      then open_release_loop baseLabel labels rest (openReleasePRs ++ [pull])%list
      else open_release_loop baseLabel labels rest openReleasePRs
  end.

(** The body of the loop of [findMergedReleasePR] for one pull: the record
    it returns, or [None] where the source says [continue]. *)
Definition merged_release_of (baseLabel : string) (labels : list string)
           (prefix : option string) (preRelease : bool) (pull : Pull)
  : option GitHubReleasePR :=
  if (length labels =? 0)%nat || hasAllLabels labels (pull_labels pull) then
    match pull_head pull with
    | None => None
    | Some h =>
        if off_base pull baseLabel then None
        else
          match match_branch (ref_label h) with
          | None => None
          | Some (package, version) =>
              if negb (Js.truthy (pull_merged_at pull)) then None
              else if negb (Js.truthy (Some version)) then None
              else if Js.truthy prefix
                      && negb (String.eqb package (Js.to_string prefix))
              then None
              else if negb (Js.truthy prefix) && Js.truthy (Some package)
              then None
              else if negb preRelease && Js.includes version "-" then None
              else
                match Semver.valid version with
                | None => None
                | Some normalizedVersion =>
                    Some (mkGitHubReleasePR (pull_number pull)
                                            (pull_merge_commit_sha pull)
                                            normalizedVersion)
                end
          end
    end
  else None.

(** The loop of [findMergedReleasePR]: the first pull that is not skipped. *)
Fixpoint merged_release_loop (baseLabel : string) (labels : list string)
         (prefix : option string) (preRelease : bool) (pulls : list Pull)
  : option GitHubReleasePR :=
  match pulls with
  | [] => None
  | pull :: rest =>
      match merged_release_of baseLabel labels prefix preRelease pull with
      | Some r => Some r
      | None => merged_release_loop baseLabel labels prefix preRelease rest
      end
  end.

(** The callback of [allTags] for one tag: the tags object is keyed by the
    normalized version; its keys keep the order of first insertion. *)
Definition add_tag (prefix : option string) (tags : list (string * GitHubTag))
           (data : TagItem) : list (string * GitHubTag) :=
  if Js.truthy prefix
     && negb (Js.startsWith (tag_name data) (Js.to_string prefix))
  then tags
  else
    match Semver.valid
            (Js.replace (tag_name data) (Js.to_string prefix) EmptyString) with
    | Some version =>
        assoc_set version
                  (mkGitHubTag (tag_name data) (Some (tag_commit_sha data))
                               version)
                  tags
    | None => tags
    end.

Definition collect_tags (prefix : option string) (pages : list (list TagItem))
  : list (string * GitHubTag) :=
  fold_left (fun tags page => fold_left (add_tag prefix) page tags) pages [].

Definition is_alpha_or_dot (c : ascii) : bool :=
  Js.is_alpha c || Ascii.eqb c "."%char.

(** The rewriting that the comparator of [latestTagFallback] applies to a
    version with a hyphen: keep the text before the first hyphen, take the
    text up to the second one, remove its first letter or dot and pad it
    with zeros to six characters. *)
Definition pad_prerelease (v : string) : string :=
  if Js.includes v "-" then
    match Js.split "-" v with
    | prefix :: suffix :: _ =>
        prefix ++ "-" ++ Js.padStart 6 "0" (Js.remove_first is_alpha_or_dot suffix)
    | _ => v
    end
  else v.

Definition version_comparator (v1 v2 : string) : JsError + Z :=
  match Semver.rcompare (pad_prerelease v1) (pad_prerelease v2) with
  | inl msg => inl (TypeError msg)
  | inr c => inr c
  end.

(** [Array.prototype.sort(comparefn)]: a stable insertion sort; an
    exception of the comparison function ends the sort.  When the array
    holds two elements or more each of them is compared at least once. *)
Fixpoint sort_insert {A} (comparefn : A -> A -> JsError + Z) (x : A)
         (sorted : list A) : JsError + list A :=
  match sorted with
  | [] => inr [x]
  | y :: rest =>
      match comparefn x y with
      | inl e => inl e
      | inr c =>
          if (c <? 0)%Z then inr (x :: y :: rest)
          else match sort_insert comparefn x rest with
               | inl e => inl e
               | inr rest' => inr (y :: rest')
               end
      end
  end.

Fixpoint sort_from {A} (comparefn : A -> A -> JsError + Z) (sorted todo : list A)
  : JsError + list A :=
  match todo with
  | [] => inr sorted
  | x :: todo' =>
      match sort_insert comparefn x sorted with
      | inl e => inl e
      | inr sorted' => sort_from comparefn sorted' todo'
      end
  end.

Definition sort {A} (comparefn : A -> A -> JsError + Z) (l : list A)
  : JsError + list A :=
  sort_from comparefn [] l.

(** The versions that [latestTagFallback] keeps from the keys of the tags
    object. *)
Definition kept_versions (preRelease : bool) (tags : list (string * GitHubTag))
  : list string :=
  filter (fun t => preRelease || negb (Js.includes t "-")) (map fst tags).

(** [latestTagFallback] after the tags have been listed. *)
Definition select_latest (preRelease : bool) (tags : list (string * GitHubTag))
  : JsError + option GitHubTag :=
  let versions := kept_versions preRelease tags in
  if (length versions =? 0)%nat then inr None
  else
    match sort version_comparator versions with
    | inl e => inl e
    | inr sorted =>
        match sorted with
        | v0 :: _ =>
            match assoc_get v0 tags with
            | Some t => inr (Some (mkGitHubTag (gt_name t) (gt_sha t) (gt_version t)))
            | None => inl (TypeError "Cannot read property 'name' of undefined")
            end
        | [] => inl (TypeError "Cannot read property 'name' of undefined")
        end
    end.

(** The scan of one page by [commitsSinceSha]: whether the boundary was
    met, and the commits collected so far. *)
Fixpoint scan_page (sha : option string) (page : list Commit)
         (commits : list Commit) : bool * list Commit :=
  match page with
  | [] => (false, commits)
  | commit :: rest =>
      match sha with
      | Some s =>
          if String.eqb (commit_sha commit) s then (true, commits)
          else scan_page sha rest (commits ++ [commit])%list
      | None => scan_page sha rest (commits ++ [commit])%list
      end
  end.

(** [qualifyRef(refName)] *)
Definition qualifyRef (refName : string) : string :=
  if negb (Js.includes refName "/") then "refs/heads/" ++ refName
  else refName.

(** The value of the expression [retries++] and the value of the variable
    afterwards. *)
Definition post_increment (retries : nat) : nat * nat :=
  (retries, S retries).

Section Client.

(** The hosting service, and [Buffer.from(text, 'base64').toString('utf8')]
    of Node.js. *)
Variable host : Host.
Variable base64_to_utf8 : string -> string.

(** [this.proxyKey ? `${sep}key=${this.proxyKey}` : ''] *)
Definition key_query (sep : string) (this : GitHub) : string :=
  if Js.truthy (proxyKey this)
  then sep ++ "key=" ++ Js.to_string (proxyKey this)
  else EmptyString.

Definition repo_params (this : GitHub) : list (string * string) :=
  [("owner", owner this); ("repo", repo this)].

(** [graphqlRequest(_opts)]: the url and the headers are added unless
    [probotMode] is set. *)
Definition decorateGraphqlOpts (probotMode : bool) (this : GitHub)
           (_opts : GraphqlOpts) : GraphqlOpts :=
  if negb probotMode then
    mkGraphqlOpts (g_query _opts) (g_cursor _opts) (g_max _opts)
                  (g_owner _opts) (g_path _opts) (g_perPage _opts)
                  (g_repo _opts) (g_baseRef _opts)
                  (Some (apiUrl this ++ "/graphql" ++ key_query "?" this))
                  [("authorization", authorization this);
                   ("content-type", "application/vnd.github.v3+json")]
  else _opts.

Definition graphqlRequest (_opts : GraphqlOpts) : M CommitsResponse :=
  this <- get_this ;;
  probotMode <- get_probotMode ;;
  let opts := decorateGraphqlOpts probotMode this _opts in
  perform (Graphql opts) (fun l => graphql_commits host l opts).

(** [decoratePaginateOpts(opts)] *)
Definition decoratePaginateOpts (probotMode : bool) (this : GitHub)
           (opts : EndpointOptions) : EndpointOptions :=
  if probotMode then opts
  else mkEndpointOptions (e_method opts) (e_url opts)
                         [("Authorization", authorization this)].

(** [getDefaultBranch()]: memoized in [this.defaultBranch]. *)
Definition getDefaultBranch : M string :=
  this <- get_this ;;
  if Js.truthy (defaultBranch this) then ret (Js.to_string (defaultBranch this))
  else
    default_branch <- perform (ReposGet (authorization this))
                              (repos_get host) ;;
    set_defaultBranch default_branch ;;;
    ret default_branch.

(** [getBaseLabel()] *)
Definition getBaseLabel : M string :=
  baseBranch <- getDefaultBranch ;;
  this <- get_this ;;
  ret (owner this ++ ":" ++ baseBranch).

(** [commitsWithFiles] and [commitsWithLabels] differ in the query and in
    the name of the bound ([maxFilesChanged], [maxLabels]) only.  [fuel]
    bounds the number of nested calls. *)
Fixpoint commitsWith (query : CommitQuery) (fuel : nat)
         (cursor : option string) (perPage : nat) (path : option string)
         (max : nat) (retries : nat) : M CommitsResponse :=
  match fuel with
  | O => out_of_fuel
  | S fuel' =>
      baseBranch <- getDefaultBranch ;;
      this <- get_this ;;
      try_catch
        (graphqlRequest
           (mkGraphqlOpts query cursor max (owner this) path perPage
                          (repo this) ("refs/heads/" ++ baseBranch)
                          None []))
        (fun err =>
           if status_is err 502 && (retries <? 3)%nat then
             let (argument, retries') := post_increment retries in
             commitsWith query fuel' cursor perPage path max argument
           else throw err)
  end.

Definition commitsWithFiles (fuel : nat) (cursor : option string)
           (perPage : nat) (path : option string) : M CommitsResponse :=
  commitsWith QueryCommitsWithFiles fuel cursor perPage path 64 0.

Definition commitsWithLabels (fuel : nat) (cursor : option string)
           (perPage : nat) (path : option string) : M CommitsResponse :=
  commitsWith QueryCommitsWithLabels fuel cursor perPage path 16 0.

(** The [for (;;)] loop of [commitsSinceSha]; [fuel] bounds the number of
    pages read and the nested calls of each page fetch. *)
Fixpoint commitsSinceSha_loop (fuel pages : nat) (sha : option string)
         (perPage : nat) (labels : bool) (path : option string)
         (commits : list Commit) (cursor : option string)
  : M (list Commit) :=
  match pages with
  | O => out_of_fuel
  | S pages' =>
      commitsResponse <-
        (if labels then commitsWithLabels fuel cursor perPage path
         else commitsWithFiles fuel cursor perPage path) ;;
      let (found, commits') :=
        scan_page sha (resp_commits commitsResponse) commits in
      if found then ret commits'
      else if negb (resp_hasNextPage commitsResponse)
              || negb (Js.truthy (resp_endCursor commitsResponse))
      then ret commits'
      else commitsSinceSha_loop fuel pages' sha perPage labels path commits'
                                (resp_endCursor commitsResponse)
  end.

Definition commitsSinceSha (fuel : nat) (sha : option string)
           (perPage : nat) (labels : bool) (path : option string)
  : M (list Commit) :=
  commitsSinceSha_loop fuel fuel sha perPage labels path [] None.

(** [findMergedReleasePR(labels, perPage, prefix, preRelease)] *)
Definition findMergedReleasePR (labels : list string) (perPage : nat)
           (prefix : option string) (preRelease : bool)
  : M (option GitHubReleasePR) :=
  baseLabel <- getBaseLabel ;;
  this <- get_this ;;
  pulls <- perform
             (Request ("GET /repos/:owner/:repo/pulls?state=closed&per_page="
                       ++ Js.number_to_string (N.of_nat perPage)
                       ++ key_query "&" this
                       ++ "&sort=merged_at&direction=desc")
                      (repo_params this))
             (fun l => pulls_list host l "closed") ;;
  ret (merged_release_loop baseLabel labels prefix preRelease pulls).

(** [findOpenReleasePRs(labels, perPage)] *)
Definition findOpenReleasePRs (labels : list string) (perPage : nat)
  : M (list Pull) :=
  baseLabel <- getBaseLabel ;;
  this <- get_this ;;
  pulls <- perform
             (Request ("GET /repos/:owner/:repo/pulls?state=open&per_page="
                       ++ Js.number_to_string (N.of_nat perPage)
                       ++ key_query "&" this)
                      (repo_params this))
             (fun l => pulls_list host l "open") ;;
  ret (open_release_loop baseLabel labels pulls []).

(** [allTags(prefix)] *)
Definition allTags (prefix : option string) : M (list (string * GitHubTag)) :=
  this <- get_this ;;
  probotMode <- get_probotMode ;;
  let opts :=
    decoratePaginateOpts probotMode this
      (mkEndpointOptions "GET"
         ("/repos/" ++ owner this ++ "/" ++ repo this ++ "/tags?per_page=100"
          ++ key_query "&" this) []) in
  pages <- perform (Paginate opts) (tags_list host) ;;
  ret (collect_tags prefix pages).

(** [latestTagFallback(prefix, preRelease)] *)
Definition latestTagFallback (prefix : option string) (preRelease : bool)
  : M (option GitHubTag) :=
  tags <- allTags prefix ;;
  match select_latest preRelease tags with
  | inl e => throw e
  | inr r => ret r
  end.


(** [getFileContentsWithSimpleAPI(path, branch)] *)
Definition getFileContentsWithSimpleAPI (path branch : string)
  : M GitHubFileContents :=
  let ref := qualifyRef branch in
  this <- get_this ;;
  data <- perform
            (Request ("GET /repos/:owner/:repo/contents/:path"
                      ++ key_query "?" this)
                     (repo_params this ++ [("path", path)]
                      ++ (if Js.truthy (Some ref) then [("ref", ref)] else []))%list)
            (fun l => contents_get host l path ref) ;;
  ret (mkGitHubFileContents (fd_sha data) (fd_content data)
                            (base64_to_utf8 (fd_content data))).

(** [getFileContentsWithDataAPI(path, branch)] *)
Definition getFileContentsWithDataAPI (path branch : string)
  : M GitHubFileContents :=
  this <- get_this ;;
  tree <- perform
            (Request ("GET /repos/:owner/:repo/git/trees/:branch"
                      ++ key_query "?" this)
                     (repo_params this ++ [("branch", branch)])%list)
            (fun l => tree_get host l branch) ;;
  match find (fun entry => String.eqb (te_path entry) path) tree with
  | None => throw (PlainError ("Could not find requested path: " ++ path))
  | Some blobDescriptor =>
      data <- perform
                (Request ("GET /repos/:owner/:repo/git/blobs/:sha"
                          ++ key_query "?" this)
                         (repo_params this
                          ++ [("sha", te_sha blobDescriptor)])%list)
                (fun l => blob_get host l (te_sha blobDescriptor)) ;;
      ret (mkGitHubFileContents (fd_sha data) (fd_content data)
                                (base64_to_utf8 (fd_content data)))
  end.

(** [getFileContentsOnBranch(path, branch)] *)
Definition getFileContentsOnBranch (path branch : string)
  : M GitHubFileContents :=
  try_catch (getFileContentsWithSimpleAPI path branch)
            (fun err =>
               if status_is err 403
               then getFileContentsWithDataAPI path branch
               else throw err).

(** What the [try] block of [getChangeSet] leaves for one update: the
    content read, no content for a file to create, or [continue]. *)
Inductive read_result : Type :=
| Content (c : GitHubFileContents)
| NoContent
| Skip.

Definition read_update (update : Update) (branch : string) : M read_result :=
  try_catch
    (match u_contents update with
     | Some contents => ret (Content contents)
     | None =>
         fileContent <- getFileContentsOnBranch (u_path update) branch ;;
         ret (Content fileContent)
     end)
    (fun err =>
       if negb (status_is err 404) then throw err
       else if negb (u_create update) then ret Skip
       else ret NoContent).

(** The loop of [getChangeSet(updates, defaultBranch)]. *)
Fixpoint getChangeSet_loop (updates : list Update) (branch : string)
         (changes : Changes) : M Changes :=
  match updates with
  | [] => ret changes
  | update :: rest =>
      r <- read_update update branch ;;
      match r with
      | Skip => getChangeSet_loop rest branch changes
      | _ =>
          let contentText :=
            match r with
            | Content c => Some (base64_to_utf8 (fc_content c))
            | _ => None
            end in
          let updatedContent := updateContent update contentText in
          if Js.truthy updatedContent then
            getChangeSet_loop rest branch
              (assoc_set (u_path update)
                         (mkFileChange (Js.to_string updatedContent) "100644")
                         changes)
          else getChangeSet_loop rest branch changes
      end
  end.

Definition getChangeSet (updates : list Update) (branch : string)
  : M Changes :=
  getChangeSet_loop updates branch [].

(** The first loop of [openPR]: the first candidate whose head ref occurs
    in [refName]; reading [head.ref] of a pull without a head throws. *)
Fixpoint find_open_release (refName : string) (candidates : list Pull)
  : JsError + option Pull :=
  match candidates with
  | [] => inr None
  | releasePR :: rest =>
      match pull_head releasePR with
      | None => inl (TypeError "Cannot read property 'ref' of null")
      | Some h =>
          if Js.truthy (Some refName) && Js.includes refName (ref_ref h)
          then inr (Some releasePR)
          else find_open_release refName rest
      end
  end.

(** [openReleasePR.body === options.body] *)
Definition same_body (openReleasePR : Pull) (options : GitHubPR) : bool :=
  match pull_body openReleasePR with
  | Some b => String.eqb b (pr_body options)
  | None => false
  end.

(** [openPR(options)] *)
Definition openPR (options : GitHubPR) : M Z :=
  branch <- getDefaultBranch ;;
  let refName := "refs/heads/" ++ pr_branch options in
  releasePRCandidates <- findOpenReleasePRs (pr_labels options) 100 ;;
  match find_open_release refName releasePRCandidates with
  | inl e => throw e
  | inr openReleasePR =>
      if match openReleasePR with
         | Some p => same_body p options
         | None => false
         end
      then ret 0%Z
      else
        changes <- getChangeSet (pr_updates options) branch ;;
        this <- get_this ;;
        let createOptions :=
          mkCreatePullRequestOptions
            (owner this) (repo this) (pr_title options) (pr_branch options)
            (pr_body options) branch true (pr_fork options)
            (pr_title options) in
        prNumber <- perform (CreatePullRequest changes createOptions)
                            (fun l => createPullRequest host l changes
                                                        createOptions) ;;
        match openReleasePR with
        | Some p =>
            perform
              (Request ("PATCH /repos/:owner/:repo/pulls/:pull_number"
                        ++ key_query "?" this)
                       [("pull_number",
                         Js.number_to_string (Z.to_N (pull_number p)));
                        ("owner", owner this); ("repo", repo this);
                        ("title", pr_title options);
                        ("body", pr_body options); ("state", "open")])
              (fun l => pull_patch host l (pull_number p)) ;;;
            ret (pull_number p)
        | None => ret prNumber
        end
  end.

End Client.

(** ** Test doubles of the hosting service *)

Module Fake.

Definition refused {A : Type} : JsError + A := inl (HttpError 500).

(** A host that lists the given closed and open pulls and the given pages
    of tags. *)
Definition with_pulls_and_tags (closed open : list Pull)
           (tags : list (list TagItem)) : Host :=
  mkHost (fun _ => refused) (fun _ _ => refused)
         (fun _ state => if String.eqb state "open" then inr open
                         else inr closed)
         (fun _ => inr tags) (fun _ _ _ => refused) (fun _ _ => refused)
         (fun _ _ => refused) (fun _ _ => inr tt) (fun _ _ _ => inr 1%Z).

(** A host whose commit-history query always fails with [status]. *)
Definition failing_history (status : Z) : Host :=
  mkHost (fun _ => refused) (fun _ _ => inl (HttpError status))
         (fun _ _ => refused) (fun _ => refused) (fun _ _ _ => refused)
         (fun _ _ => refused) (fun _ _ => refused) (fun _ _ => refused)
         (fun _ _ _ => refused).

(** The cursor that leads to page [index]: none for the first page. *)
Definition cursor_of (index : nat) : option string :=
  match index with
  | O => None
  | S _ => Some (Js.repeat_char "c" index)
  end.

Definition index_of (cursor : option string) : nat :=
  match cursor with
  | None => O
  | Some c => String.length c
  end.

(** A host that serves a commit history cut into pages. *)
Definition page_of (pages : list (list Commit)) (cursor : option string)
  : CommitsResponse :=
  let index := index_of cursor in
  mkCommitsResponse (cursor_of (S index))
                    (S index <? length pages)%nat
                    (nth index pages []).

Definition paged_history (pages : list (list Commit)) : Host :=
  mkHost (fun _ => refused)
         (fun _ opts => inr (page_of pages (g_cursor opts)))
         (fun _ _ => refused) (fun _ => refused) (fun _ _ _ => refused)
         (fun _ _ => refused) (fun _ _ => refused) (fun _ _ => refused)
         (fun _ _ _ => refused).

(** A host on which the contents request fails with [status] and the tree
    of every branch is [tree]; blobs hold their identifier. *)
Definition guarded_files (status : Z) (tree : list TreeEntry) : Host :=
  mkHost (fun _ => refused) (fun _ _ => refused) (fun _ _ => refused)
         (fun _ => refused) (fun _ _ _ => inl (HttpError status))
         (fun _ _ => inr tree) (fun _ s => inr (mkFileData s s))
         (fun _ _ => refused) (fun _ _ _ => refused).

(** An instance of owner [owner], repository [repo], with the default
    branch [main] resolved, and an empty log. *)
Definition instance : GitHub :=
  mkGitHub (Some "main") (Some "t0k3n") "owner" "repo"
           "https://api.github.com" None None.

Definition start : World := mkWorld false instance [].

Definition identity (s : string) : string := s.

Definition commit (sha : string) : Commit := mkCommit sha "fix: a change" [].

(** A history of five commits on two pages. *)
Definition two_pages : list (list Commit) :=
  [[commit "e5"; commit "d4"]; [commit "c3"; commit "b2"; commit "a1"]].

(** A merged release pull of the package [mypkg] against [owner:main]. *)
Definition merged_pull : Pull :=
  mkPull 12 ["release-please"; "autorelease: pending"]
         (Some (mkPullRef "owner:release-mypkg-v1.2.3" "release-mypkg-v1.2.3"))
         (Some (mkPullRef "owner:main" "main"))
         (Some "2020-09-01T12:00:00Z") (Some "abc123") (Some "notes").


(** Options without and with injected APIs. *)
Definition plain_options : GitHubOptions :=
  mkGitHubOptions (Some "main") (Some "t0k3n") "owner" "repo" None None None.

Definition injected_options : GitHubOptions :=
  mkGitHubOptions (Some "main") None "probot" "app" None None
                  (Some (InjectedAPIs 1)).

Definition tags_endpoint : EndpointOptions :=
  mkEndpointOptions "GET" "/repos/owner/repo/tags?per_page=100" [].

(** An update that creates [CHANGELOG.md] when it is missing. *)
Definition changelog_update : Update :=
  mkUpdate "CHANGELOG.md" true None (fun _ => Some "# Changelog").

(** An open release pull against [owner:main]. *)
Definition pending_pull : Pull :=
  mkPull 5 ["autorelease: pending"]
         (Some (mkPullRef "owner:release-v1.0.0" "release-v1.0.0"))
         (Some (mkPullRef "owner:main" "main"))
         None None (Some "notes").

(** An older open release pull whose head ref, [release-v1], occurs in
    [refs/heads/release-v1.0.0]. *)
Definition stale_pull : Pull :=
  mkPull 3 ["autorelease: pending"]
         (Some (mkPullRef "owner:release-v1" "release-v1"))
         (Some (mkPullRef "owner:main" "main"))
         None None (Some "old notes").

(** The desired release pull: the branch and the body of [pending_pull]. *)
Definition release_descriptor : GitHubPR :=
  mkGitHubPR "release-v1.0.0" false "1.0.0" "chore: release 1.0.0" "notes"
             "abc123" [] ["autorelease: pending"].

End Fake.

(** ** Auxiliary notions for the statements *)

Definition branch_known (w : World) (branch : string) : Prop :=
  defaultBranch (this w) = Some branch /\ branch <> EmptyString.

(** The world after one more request. *)
Definition logged (w : World) (c : Call) : World :=
  mkWorld (probotMode w) (this w) (log w ++ [c])%list.

Definition has_label (observed : list string) (l : string) : bool :=
  existsb (String.eqb l) observed.

Definition open_release_keeps (baseLabel : string) (labels : list string)
           (pull : Pull) : bool :=
  negb (off_base pull baseLabel)
  && open_labels_loop (pull_labels pull) labels false.


(** The options that a page fetch hands to [this.graphql] in world [w]. *)
Definition page_query (w : World) (query : CommitQuery)
           (cursor : option string) (perPage : nat) (path : option string)
           (max : nat) (branch : string) : GraphqlOpts :=
  decorateGraphqlOpts (probotMode w) (this w)
    (mkGraphqlOpts query cursor max (owner (this w)) path perPage
                   (repo (this w)) ("refs/heads/" ++ branch) None []).

(** The world after [n] more requests [c]. *)
Definition logged_times (w : World) (c : Call) (n : nat) : World :=
  mkWorld (probotMode w) (this w) (log w ++ repeat c n)%list.

(** Every answer of the commit-history query is a failure of status 502. *)
Definition always_gateway_failure (host : Host) : Prop :=
  forall l opts, exists e,
    graphql_commits host l opts = inl e /\ status_is e 502 = true.

(** [commit.sha === sha] *)
Definition is_boundary (sha : option string) (commit : Commit) : bool :=
  match sha with
  | Some s => String.eqb (commit_sha commit) s
  | None => false
  end.

(** The commits of a history that come before the first one whose sha is
    the boundary. *)
Fixpoint before_boundary (sha : option string) (history : list Commit)
  : list Commit :=
  match history with
  | [] => []
  | commit :: rest =>
      if is_boundary sha commit then []
      else commit :: before_boundary sha rest
  end.

(** [host] serves the commit history [pages], most recent first: the query
    without a cursor answers with the first page, the query with the
    [i]-th cursor with page [i]; a page announces a next page exactly when
    there is one and then carries the cursor that leads to it. *)
Definition serves_pages (host : Host) (cursors : nat -> option string)
           (pages : list (list Commit)) : Prop :=
  cursors 0 = None
  /\ (forall i, Js.truthy (cursors (S i)) = true)
  /\ (forall l opts i,
         g_cursor opts = cursors i ->
         exists last,
           graphql_commits host l opts
           = inr (mkCommitsResponse
                    (if (S i <? length pages)%nat then cursors (S i) else last)
                    (S i <? length pages)%nat
                    (nth i pages []))).

(** The prefix rule: the requested prefix and the one extracted from the
    branch name are both absent, or they are equal. *)
Definition prefix_rule (requested : option string) (extracted : string)
  : Prop :=
  if Js.truthy requested then extracted = Js.to_string requested
  else extracted = EmptyString.

(** The closed-pulls request of [findMergedReleasePR]. *)
Definition closed_pulls_request (this : GitHub) (perPage : nat) : Call :=
  Request ("GET /repos/:owner/:repo/pulls?state=closed&per_page="
           ++ Js.number_to_string (N.of_nat perPage)
           ++ key_query "&" this ++ "&sort=merged_at&direction=desc")
          (repo_params this).



(** The tags request of [allTags] in world [w]. *)
Definition tags_request (w : World) : Call :=
  Paginate
    (decoratePaginateOpts (probotMode w) (this w)
       (mkEndpointOptions "GET"
          ("/repos/" ++ owner (this w) ++ "/" ++ repo (this w)
           ++ "/tags?per_page=100" ++ key_query "&" (this w)) [])).


(** The module-level [probotMode] after constructing instances in order. *)
Fixpoint construct_all (optionss : list GitHubOptions) (probotMode : bool)
  : bool :=
  match optionss with
  | [] => probotMode
  | options :: rest => construct_all rest (snd (constructor options probotMode))
  end.

Definition injects (options : GitHubOptions) : bool :=
  match o_octokitAPIs options with
  | Some _ => true
  | None => false
  end.

(** The requests of the two strategies of [getFileContentsOnBranch]. *)
Definition contents_request (this : GitHub) (path branch : string) : Call :=
  Request ("GET /repos/:owner/:repo/contents/:path" ++ key_query "?" this)
          (repo_params this ++ [("path", path)]
           ++ [("ref", qualifyRef branch)])%list.

Definition tree_request (this : GitHub) (branch : string) : Call :=
  Request ("GET /repos/:owner/:repo/git/trees/:branch" ++ key_query "?" this)
          (repo_params this ++ [("branch", branch)])%list.

(** The error of the tree-and-blob strategy for a path that the tree
    lacks. *)
Definition missing_path (path : string) : JsError :=
  PlainError ("Could not find requested path: " ++ path).

Definition has_path (path : string) (entry : TreeEntry) : bool :=
  String.eqb (te_path entry) path.

(** The requests of [openPR]. *)
Definition open_pulls_request (this : GitHub) (perPage : nat) : Call :=
  Request ("GET /repos/:owner/:repo/pulls?state=open&per_page="
           ++ Js.number_to_string (N.of_nat perPage) ++ key_query "&" this)
          (repo_params this).

Definition create_options (this : GitHub) (options : GitHubPR)
           (branch : string) : CreatePullRequestOptions :=
  mkCreatePullRequestOptions
    (owner this) (repo this) (pr_title options) (pr_branch options)
    (pr_body options) branch true (pr_fork options) (pr_title options).


(** [refs/heads/<options.branch>] *)
Definition ref_name (options : GitHubPR) : string :=
  "refs/heads/" ++ pr_branch options.

(** ** The remaining methods of [GitHub] *)

(** An item of the issues listing. *)
Record Issue : Type := mkIssue {
  issue_number : Z;
  issue_title : string;
  issue_state : string
}.

(** The endpoints that the methods below use besides those of [Host].
    [issues_list] gives the
    pages that the paginating iterator yields, each one an answer or a
    failure; the iterator asks for a page only when the loop reaches it. *)
Record Service : Type := mkService {
  issues_list : list Call -> list (JsError + list Issue);
  label_remove : list Call -> Z -> string -> JsError + unit
}.

(** [class AuthError extends Error]: message [unauthorized], status 401. *)
Definition AuthError : JsError := mkError "Error" (Some 401%Z) "unauthorized".

(** The inner loop of [findExistingReleaseIssue] over one page: the first
    open issue whose title contains [title]. *)
Fixpoint scan_issues (title : string) (data : list Issue) : option Issue :=
  match data with
  | [] => None
  | issue :: rest =>
      if Js.includes (issue_title issue) title
         && String.eqb (issue_state issue) "open"
      then Some issue
      else scan_issues title rest
  end.

Section Maintenance.

Variable host : Host.
Variable service : Service.
Variable base64_to_utf8 : string -> string.

(** The options of the issues listing; the option [per_page: 100] has no
    field in [EndpointOptions] and is left out of the log. *)
Definition issues_endpoint (probotMode : bool) (this : GitHub)
           (labels : list string) : EndpointOptions :=
  decoratePaginateOpts probotMode this
    (mkEndpointOptions "GET"
       ("/repos/" ++ owner this ++ "/" ++ repo this ++ "/issues?labels="
        ++ Js.join "," labels ++ key_query "&" this) []).

(** The [for await] loop of [findExistingReleaseIssue]: a page is requested
    when the loop reaches it. *)
Fixpoint issues_loop (opts : EndpointOptions) (title : string)
         (pages : list (JsError + list Issue)) : M (option Issue) :=
  match pages with
  | [] => ret None
  | page :: rest =>
      data <- perform (Paginate opts) (fun _ => page) ;;
      match scan_issues title data with
      | Some issue => ret (Some issue)
      | None => issues_loop opts title rest
      end
  end.

(** [findExistingReleaseIssue(title, labels)] *)
Definition findExistingReleaseIssue (title : string) (labels : list string)
  : M (option Issue) :=
  try_catch
    (this <- get_this ;;
     probotMode <- get_probotMode ;;
     fun w =>
       issues_loop (issues_endpoint probotMode this labels) title
                   (issues_list service (log w)) w)
    (fun err =>
       if status_is err 404 then throw AuthError else throw err).

(** [getFileContents(path)] *)
Definition getFileContents (path : string) : M GitHubFileContents :=
  branch <- getDefaultBranch host ;;
  getFileContentsOnBranch host base64_to_utf8 path branch.

(** The request that removes one label. *)
Definition remove_label_request (this : GitHub) (prNumber : Z)
           (label : string) : Call :=
  Request ("DELETE /repos/:owner/:repo/issues/:issue_number/labels/:name"
           ++ key_query "?" this)
          (repo_params this
           ++ [("issue_number", Js.number_to_string (Z.to_N prNumber));
               ("name", label)])%list.

(** [removeLabels(labels, prNumber)]: one awaited request per label. *)
Fixpoint removeLabels (labels : list string) (prNumber : Z) : M unit :=
  match labels with
  | [] => ret tt
  | label :: rest =>
      this <- get_this ;;
      perform (remove_label_request this prNumber label)
              (fun l => label_remove service l prNumber label) ;;;
      removeLabels rest prNumber
  end.

End Maintenance.

(** ** Auxiliary notions for the further properties *)

Module MoreFake.


(** A host whose commit-history query fails with status 502 until [n]
    requests have been made and then answers with [response]. *)
Definition warming_up (n : nat) (response : CommitsResponse) : Host :=
  mkHost (fun _ => Fake.refused)
         (fun l _ => if (length l <? n)%nat then inl (HttpError 502)
                     else inr response)
         (fun _ _ => Fake.refused) (fun _ => Fake.refused)
         (fun _ _ _ => Fake.refused) (fun _ _ => Fake.refused)
         (fun _ _ => Fake.refused) (fun _ _ => Fake.refused)
         (fun _ _ _ => Fake.refused).

(** A service that answers nothing but the given issue pages and the
    removal of every label but [stubborn]. *)
Definition issue_service (pages : list (JsError + list Issue))
           (stubborn : string) : Service :=
  mkService (fun _ => pages)
            (fun _ _ label => if String.eqb label stubborn
                              then inl (HttpError 404) else inr tt).

End MoreFake.

(** What holds of every entry of a change set built from [updates]: the
    file mode is that of a regular file, the content is not empty and is
    what the transformation of an update for that path produced. *)
Definition staged_from (updates : list Update) (path : string)
           (change : FileChange) : Prop :=
  ch_mode change = "100644"
  /\ ch_content change <> EmptyString
  /\ exists update text,
      In update updates
      /\ u_path update = path
      /\ updateContent update text = Some (ch_content change).

(** The change that an update stages for the current text. *)
Definition stage (update : Update) (text : option string) (changes : Changes)
  : Changes :=
  if Js.truthy (updateContent update text)
  then assoc_set (u_path update)
                 (mkFileChange (Js.to_string (updateContent update text))
                               "100644")
                 changes
  else changes.


Definition blob_request (this : GitHub) (sha : string) : Call :=
  Request ("GET /repos/:owner/:repo/git/blobs/:sha" ++ key_query "?" this)
          (repo_params this ++ [("sha", sha)])%list.

Definition change_set_ok (updates : list Update) (changes : Changes) : Prop :=
  NoDup (map fst changes)
  /\ forall path change, In (path, change) changes ->
                         staged_from updates path change.

(** The number of pages of a history that are read up to the page that
    holds the boundary; at least one request is made. *)
Fixpoint pages_read (sha : option string) (pages : list (list Commit)) : nat :=
  match pages with
  | [] => 1
  | page :: rest =>
      if existsb (is_boundary sha) page then 1
      else match rest with
           | [] => 1
           | _ :: _ => S (pages_read sha rest)
           end
  end.

(** The query of one page fetch of [commitsSinceSha]. *)
Definition history_query (w : World) (labels : bool) (cursor : option string)
           (perPage : nat) (path : option string) (branch : string)
  : GraphqlOpts :=
  page_query w (if labels then QueryCommitsWithLabels else QueryCommitsWithFiles)
             cursor perPage path (if labels then 16 else 64) branch.

(** [issue.title.indexOf(title) !== -1 && issue.state === 'open'] *)
Definition issue_matches (title : string) (issue : Issue) : bool :=
  Js.includes (issue_title issue) title
  && String.eqb (issue_state issue) "open".

(** The pages of an issues listing that answers every request. *)
Definition answered (pages : list (list Issue)) : list (JsError + list Issue) :=
  map (fun page => inr page) pages.
(** ** Running the methods: basic equations *)

Lemma truthy_known (w : World) (branch : string) :
  branch_known w branch -> Js.truthy (defaultBranch (this w)) = true.
Proof.
  intros [Hd Hne]. rewrite Hd. simpl.
  destruct (String.eqb_spec branch EmptyString); [contradiction | reflexivity].
Qed.

Lemma start_branch_known : branch_known Fake.start "main".
Proof. split; [reflexivity | discriminate]. Qed.

Lemma getDefaultBranch_known (host : Host) (w : World) (branch : string) :
  branch_known w branch -> getDefaultBranch host w = (Ok branch, w).
Proof.
  intros H. unfold getDefaultBranch, bind, get_this.
  rewrite (truthy_known w branch H). destruct H as [Hd _]. rewrite Hd.
  reflexivity.
Qed.

Lemma getBaseLabel_known (host : Host) (w : World) (branch : string) :
  branch_known w branch ->
  getBaseLabel host w = (Ok (owner (this w) ++ ":" ++ branch), w).
Proof.
  intros H. unfold getBaseLabel, bind.
  rewrite (getDefaultBranch_known host w branch H). reflexivity.
Qed.

Lemma branch_known_logged (w : World) (c : Call) (branch : string) :
  branch_known w branch -> branch_known (logged w c) branch.
Proof. intros H. exact H. Qed.

Lemma perform_ok {A} (c : Call) (answer : list Call -> JsError + A)
      (w : World) (a : A) :
  answer (log w) = inr a -> perform c answer w = (Ok a, logged w c).
Proof. intros H. unfold perform. rewrite H. reflexivity. Qed.

Lemma perform_throw {A} (c : Call) (answer : list Call -> JsError + A)
      (w : World) (e : JsError) :
  answer (log w) = inl e -> perform c answer w = (Throw e, logged w c).
Proof. intros H. unfold perform. rewrite H. reflexivity. Qed.

(** ** Label matching *)

Lemma hasAllLabels_fold (labelsA labelsB : list string) (flag : bool) :
  fold_left
    (fun hasAll label =>
       if negb (existsb (String.eqb label) labelsB) then false else hasAll)
    labelsA flag
  = flag && forallb (has_label labelsB) labelsA.
Proof.
  revert flag. induction labelsA as [|l rest IH]; intros flag; simpl.
  - now rewrite andb_true_r.
  - rewrite IH. unfold has_label at 2.
    destruct (existsb (String.eqb l) labelsB); simpl.
    + reflexivity.
    + now rewrite andb_false_r.
Qed.

(** [hasAllLabels] is the superset test; it holds of the empty
    requirement. *)
Lemma hasAllLabels_forallb (labelsA labelsB : list string) :
  hasAllLabels labelsA labelsB = forallb (has_label labelsB) labelsA.
Proof. unfold hasAllLabels. now rewrite hasAllLabels_fold. Qed.

(** The label loop of [findOpenReleasePRs] answers with its initial flag
    on the empty requirement and with the superset test otherwise. *)
Lemma open_labels_loop_spec (observed labels : list string) (flag : bool) :
  open_labels_loop observed labels flag
  = match labels with
    | [] => flag
    | _ :: _ => forallb (has_label observed) labels
    end.
Proof.
  revert flag. induction labels as [|l rest IH]; intros flag; simpl.
  - reflexivity.
  - unfold has_label at 1. destruct (existsb (String.eqb l) observed); simpl.
    + rewrite IH. destruct rest; reflexivity.
    + reflexivity.
Qed.

Lemma open_release_loop_filter (baseLabel : string) (labels : list string)
      (pulls acc : list Pull) :
  open_release_loop baseLabel labels pulls acc
  = (acc ++ filter (open_release_keeps baseLabel labels) pulls)%list.
Proof.
  revert acc. induction pulls as [|pull rest IH]; intros acc; simpl.
  - now rewrite app_nil_r.
  - unfold open_release_keeps at 1.
    destruct (off_base pull baseLabel); simpl.
    + apply IH.
    + destruct (open_labels_loop (pull_labels pull) labels false).
      * rewrite IH, <- app_assoc. reflexivity.
      * apply IH.
Qed.

Lemma findOpenReleasePRs_run (host : Host) (labels : list string)
      (perPage : nat) (w : World) (branch : string) (pulls : list Pull) :
  branch_known w branch ->
  pulls_list host (log w) "open" = inr pulls ->
  findOpenReleasePRs host labels perPage w
  = (Ok (filter (open_release_keeps (owner (this w) ++ ":" ++ branch) labels)
                pulls),
     logged w (Request ("GET /repos/:owner/:repo/pulls?state=open&per_page="
                        ++ Js.number_to_string (N.of_nat perPage)
                        ++ key_query "&" (this w))
                       (repo_params (this w)))).
Proof.
  intros Hb Hp. unfold findOpenReleasePRs, bind.
  rewrite (getBaseLabel_known host w branch Hb). unfold get_this.
  rewrite (perform_ok _ _ w pulls Hp). unfold ret.
  now rewrite open_release_loop_filter.
Qed.

Lemma open_release_keeps_nothing (baseLabel : string) (pulls : list Pull) :
  filter (open_release_keeps baseLabel []) pulls = [].
Proof.
  induction pulls as [|pull rest IH]; simpl.
  - reflexivity.
  - unfold open_release_keeps at 1. simpl. rewrite andb_false_r. exact IH.
Qed.

(** C5 (the code departs from the claim): with the empty label requirement
    [findOpenReleasePRs] returns no pull at all, whatever the open pulls
    and their base labels are: the flag of the label loop starts [false]
    and the loop over no label never sets it. *)
Theorem findOpenReleasePRs_empty_labels_returns_nothing
        (host : Host) (perPage : nat) (w : World) (branch : string)
        (pulls : list Pull) :
  branch_known w branch ->
  pulls_list host (log w) "open" = inr pulls ->
  fst (findOpenReleasePRs host [] perPage w) = Ok [].
Proof.
  intros Hb Hp.
  rewrite (findOpenReleasePRs_run host [] perPage w branch pulls Hb Hp).
  simpl. now rewrite open_release_keeps_nothing.
Qed.

(** The failing input of C5: one open pull on the base label
    [owner:main]; the call with no required label leaves it out. *)
Lemma findOpenReleasePRs_empty_labels_witness :
  off_base Fake.pending_pull "owner:main" = false /\
  fst (findOpenReleasePRs (Fake.with_pulls_and_tags [] [Fake.pending_pull] [])
                          [] 100 Fake.start) = Ok [].
Proof.
  split; [reflexivity |].
  apply (findOpenReleasePRs_empty_labels_returns_nothing
           (Fake.with_pulls_and_tags [] [Fake.pending_pull] []) 100
           Fake.start "main" [Fake.pending_pull]).
  - split; [reflexivity | discriminate].
  - reflexivity.
Defined.

(** ** The page fetches of the commit history and their retries *)

Lemma graphqlRequest_run (host : Host) (_opts : GraphqlOpts) (w : World) :
  graphqlRequest host _opts w
  = perform (Graphql (decorateGraphqlOpts (probotMode w) (this w) _opts))
            (fun l => graphql_commits host l
                        (decorateGraphqlOpts (probotMode w) (this w) _opts))
            w.
Proof. reflexivity. Qed.

(** One step of a page fetch whose default branch is resolved. *)
Lemma commitsWith_step (host : Host) (query : CommitQuery) (fuel : nat)
      (cursor : option string) (perPage : nat) (path : option string)
      (max retries : nat) (w : World) (branch : string) :
  branch_known w branch ->
  commitsWith host query (S fuel) cursor perPage path max retries w
  = let opts := page_query w query cursor perPage path max branch in
    match graphql_commits host (log w) opts with
    | inr response => (Ok response, logged w (Graphql opts))
    | inl err =>
        if status_is err 502 && (retries <? 3)%nat
        then commitsWith host query fuel cursor perPage path max
                         (fst (post_increment retries))
                         (logged w (Graphql opts))
        else (Throw err, logged w (Graphql opts))
    end.
Proof.
  intros Hb. cbn [commitsWith]. unfold bind at 1.
  rewrite (getDefaultBranch_known host w branch Hb).
  unfold bind at 1, get_this at 1. unfold try_catch.
  rewrite graphqlRequest_run. unfold perform, page_query. cbn zeta.
  destruct (graphql_commits host (log w) _) as [err|response].
  - unfold logged. destruct (status_is err 502 && (retries <? 3)%nat);
      reflexivity.
  - reflexivity.
Qed.

Lemma logged_times_S (w : World) (c : Call) (n : nat) :
  logged_times (logged w c) c n = logged_times w c (S n).
Proof.
  unfold logged_times, logged. simpl. now rewrite <- app_assoc.
Qed.

Lemma gateway_failure_loops (host : Host) (query : CommitQuery)
      (cursor : option string) (perPage : nat) (path : option string)
      (max : nat) (branch : string) (fuel : nat) :
  always_gateway_failure host ->
  forall w, branch_known w branch ->
  commitsWith host query fuel cursor perPage path max 0 w
  = (OutOfFuel,
     logged_times w (Graphql (page_query w query cursor perPage path max branch))
                  fuel).
Proof.
  intros Hfail. induction fuel as [|fuel IH]; intros w Hb.
  - unfold logged_times. simpl. rewrite app_nil_r. destruct w; reflexivity.
  - rewrite (commitsWith_step host query fuel cursor perPage path max 0 w branch Hb).
    cbn zeta.
    destruct (Hfail (log w) (page_query w query cursor perPage path max branch))
      as [e [He Hs]].
    rewrite He, Hs. simpl.
    rewrite IH by (apply branch_known_logged; exact Hb).
    now rewrite <- logged_times_S.
Qed.

(** A failure of any other status is surfaced by the first attempt. *)
Lemma commitsWith_other_failure_is_immediate (host : Host)
      (query : CommitQuery) (fuel : nat) (cursor : option string)
      (perPage : nat) (path : option string) (max retries : nat) (w : World)
      (branch : string) (err : JsError) :
  branch_known w branch ->
  graphql_commits host (log w)
                  (page_query w query cursor perPage path max branch)
  = inl err ->
  status_is err 502 = false ->
  commitsWith host query (S fuel) cursor perPage path max retries w
  = (Throw err,
     logged w (Graphql (page_query w query cursor perPage path max branch))).
Proof.
  intros Hb He Hs.
  rewrite (commitsWith_step host query fuel cursor perPage path max retries w branch Hb).
  cbn zeta. now rewrite He, Hs.
Qed.

(** C1 (the code departs from the claim): the recursive call receives the
    value of [retries++], which is the old value, so every attempt runs
    with [retries = 0].  While the query keeps failing with status 502 the
    fetch never surfaces the error: whatever number of attempts is allowed,
    all of them are made, each one sends the query again, and the run is
    still not finished. *)
Theorem commitsWith_gateway_failure_never_surfaces
        (host : Host) (attempts : nat) (cursor : option string)
        (perPage : nat) (path : option string) (w : World) (branch : string) :
  branch_known w branch ->
  always_gateway_failure host ->
  commitsWithFiles host attempts cursor perPage path w
  = (OutOfFuel,
     logged_times w (Graphql (page_query w QueryCommitsWithFiles cursor
                                          perPage path 64 branch))
                  attempts)
  /\ commitsWithLabels host attempts cursor perPage path w
     = (OutOfFuel,
        logged_times w (Graphql (page_query w QueryCommitsWithLabels cursor
                                             perPage path 16 branch))
                     attempts).
Proof.
  intros Hb Hfail. unfold commitsWithFiles, commitsWithLabels.
  split; apply gateway_failure_loops; assumption.
Qed.

(** The failing input of C1: a backend that answers 502 to every query.
    Ten attempts are allowed; ten queries are sent and no error is
    surfaced, where the claim allows four. *)
Lemma commitsWith_gateway_failure_witness :
  fst (commitsWithFiles (Fake.failing_history 502) 10 None 100 None Fake.start)
  = OutOfFuel
  /\ length (log (snd (commitsWithFiles (Fake.failing_history 502) 10 None 100
                                        None Fake.start))) = 10.
Proof.
  assert (Hb : branch_known Fake.start "main")
    by (split; [reflexivity | discriminate]).
  assert (Hf : always_gateway_failure (Fake.failing_history 502))
    by (intros l opts; exists (HttpError 502); split; reflexivity).
  destruct (commitsWith_gateway_failure_never_surfaces
              (Fake.failing_history 502) 10 None 100 None Fake.start "main"
              Hb Hf) as [Hfiles _].
  rewrite Hfiles. split; reflexivity.
Defined.

(** ** Reading the commit history up to a boundary *)

Lemma scan_page_spec (sha : option string) (page commits : list Commit) :
  scan_page sha page commits
  = (existsb (is_boundary sha) page,
     (commits ++ before_boundary sha page)%list).
Proof.
  revert commits. induction page as [|commit rest IH]; intros commits; simpl.
  - now rewrite app_nil_r.
  - destruct sha as [s|]; simpl.
    + destruct (String.eqb (commit_sha commit) s); simpl.
      * now rewrite app_nil_r.
      * rewrite IH, <- app_assoc. reflexivity.
    + rewrite IH, <- app_assoc. reflexivity.
Qed.

Lemma before_boundary_app (sha : option string) (l1 l2 : list Commit) :
  before_boundary sha (l1 ++ l2)
  = if existsb (is_boundary sha) l1 then before_boundary sha l1
    else (l1 ++ before_boundary sha l2)%list.
Proof.
  induction l1 as [|c l1 IH]; simpl.
  - reflexivity.
  - destruct (is_boundary sha c); simpl.
    + reflexivity.
    + rewrite IH. destruct (existsb (is_boundary sha) l1); reflexivity.
Qed.

Lemma before_boundary_none (sha : option string) (l : list Commit) :
  (forall c, In c l -> is_boundary sha c = false) ->
  before_boundary sha l = l.
Proof.
  induction l as [|c l IH]; intros H; simpl.
  - reflexivity.
  - rewrite (H c (or_introl eq_refl)). f_equal.
    apply IH. intros c' Hin. apply H. now right.
Qed.

Lemma before_boundary_not_met (sha : option string) (l : list Commit) :
  existsb (is_boundary sha) l = false -> before_boundary sha l = l.
Proof.
  intros H. apply before_boundary_none. intros c Hin.
  destruct (is_boundary sha c) eqn:Hc; [| reflexivity].
  assert (Hex : existsb (is_boundary sha) l = true)
    by (apply existsb_exists; exists c; split; assumption).
  congruence.
Qed.

Lemma before_boundary_first (sha : option string)
      (before after : list Commit) (b : Commit) :
  (forall c, In c before -> is_boundary sha c = false) ->
  is_boundary sha b = true ->
  before_boundary sha (before ++ b :: after) = before.
Proof.
  intros Hbefore Hb. induction before as [|c l IH]; simpl.
  - now rewrite Hb.
  - rewrite (Hbefore c (or_introl eq_refl)). f_equal.
    apply IH. intros c' Hin. apply Hbefore. now right.
Qed.

Lemma length_repeat_char (c : ascii) (n : nat) :
  String.length (Js.repeat_char c n) = n.
Proof. induction n as [|n IH]; simpl; [reflexivity | now rewrite IH]. Qed.

Lemma index_of_cursor_of (index : nat) :
  Fake.index_of (Fake.cursor_of index) = index.
Proof.
  destruct index as [|n]; [reflexivity |].
  unfold Fake.cursor_of, Fake.index_of. apply length_repeat_char.
Qed.

Lemma skipn_nth {A} (d : A) (l : list A) (n : nat) :
  n < length l -> skipn n l = nth n l d :: skipn (S n) l.
Proof.
  revert n. induction l as [|x l IH]; intros n Hn; simpl in Hn.
  - lia.
  - destruct n as [|n]; [reflexivity |].
    cbn [skipn nth]. rewrite (IH n) by lia. reflexivity.
Qed.

(** A page fetch from a host that serves pages succeeds at the first
    attempt. *)
Lemma served_fetch (host : Host) (cursors : nat -> option string)
      (pages : list (list Commit)) (fuel : nat) (labels : bool) (i : nat)
      (perPage : nat) (path : option string) (w : World) (branch : string) :
  serves_pages host cursors pages ->
  branch_known w branch ->
  exists c last,
    (if labels
     then commitsWithLabels host (S fuel) (cursors i) perPage path
     else commitsWithFiles host (S fuel) (cursors i) perPage path) w
    = (Ok (mkCommitsResponse
             (if (S i <? length pages)%nat then cursors (S i) else last)
             (S i <? length pages)%nat (nth i pages [])),
       logged w c).
Proof.
  intros [_ [_ Hserve]] Hb.
  set (query := if labels then QueryCommitsWithLabels else QueryCommitsWithFiles).
  set (max := if labels then 16 else 64).
  destruct (Hserve (log w) (page_query w query (cursors i) perPage path max branch) i)
    as [last Hanswer].
  { unfold page_query, decorateGraphqlOpts.
    destruct (negb (probotMode w)); reflexivity. }
  exists (Graphql (page_query w query (cursors i) perPage path max branch)), last.
  subst query max. destruct labels.
  - unfold commitsWithLabels.
    rewrite (commitsWith_step _ _ fuel (cursors i) perPage path 16 0 w branch Hb).
    cbn zeta. now rewrite Hanswer.
  - unfold commitsWithFiles.
    rewrite (commitsWith_step _ _ fuel (cursors i) perPage path 64 0 w branch Hb).
    cbn zeta. now rewrite Hanswer.
Qed.

(** The loop of [commitsSinceSha] over a served history, entered at page
    [index] with [commits] collected. *)
Lemma commitsSinceSha_loop_served (host : Host)
      (cursors : nat -> option string) (pages : list (list Commit))
      (fuel : nat) (sha : option string) (perPage : nat) (labels : bool)
      (path : option string) (branch : string) (budget : nat) :
  serves_pages host cursors pages ->
  forall (index : nat) (commits : list Commit) (w : World),
    branch_known w branch ->
    index < length pages \/ index = 0 ->
    length pages < index + budget ->
    fst (commitsSinceSha_loop host (S fuel) budget sha perPage labels path
                              commits (cursors index) w)
    = Ok (commits ++ before_boundary sha (concat (skipn index pages)))%list.
Proof.
  intros Hserves.
  induction budget as [|budget IH]; intros index commits w Hb Hidx Hbudget.
  - lia.
  - cbn [commitsSinceSha_loop]. unfold bind at 1.
    destruct (served_fetch host cursors pages fuel labels index perPage path
                           w branch Hserves Hb) as [c [last Hfetch]].
    rewrite Hfetch. rewrite scan_page_spec.
    cbn [resp_commits resp_hasNextPage resp_endCursor].
    destruct (Nat.ltb_spec (S index) (length pages)) as [Hnext|Hlast].
    + rewrite (skipn_nth [] pages index) by lia.
      cbn [concat]. rewrite before_boundary_app.
      destruct (existsb (is_boundary sha) (nth index pages [])) eqn:Hfound.
      * reflexivity.
      * destruct Hserves as [_ [Htruthy _]]. rewrite (Htruthy index).
        cbn [negb orb].
        rewrite (IH (S index) _ (logged w c)); [| exact Hb | lia | lia].
        rewrite (before_boundary_not_met sha _ Hfound).
        now rewrite <- app_assoc.
    + assert (Hrest : concat (skipn index pages) = nth index pages []).
      { destruct Hidx as [Hlt|Hz].
        - rewrite (skipn_nth [] pages index) by lia.
          rewrite skipn_all2 by lia. cbn [concat]. now rewrite app_nil_r.
        - subst index. destruct pages as [|p [|q rest]]; simpl in *;
            [reflexivity | now rewrite app_nil_r | lia]. }
      rewrite Hrest.
      destruct (existsb (is_boundary sha) (nth index pages [])); reflexivity.
Qed.

(** What [commitsSinceSha] returns on a served history. *)
Lemma commitsSinceSha_served (host : Host) (cursors : nat -> option string)
      (pages : list (list Commit)) (fuel : nat) (sha : option string)
      (perPage : nat) (labels : bool) (path : option string) (w : World)
      (branch : string) :
  serves_pages host cursors pages ->
  branch_known w branch ->
  length pages < fuel ->
  fst (commitsSinceSha host fuel sha perPage labels path w)
  = Ok (before_boundary sha (concat pages)).
Proof.
  intros Hserves Hb Hfuel. unfold commitsSinceSha.
  destruct fuel as [|fuel]; [lia |].
  assert (H0 : cursors 0 = None) by apply Hserves.
  rewrite <- H0.
  rewrite (commitsSinceSha_loop_served host cursors pages fuel sha perPage
             labels path branch (S fuel) Hserves 0 [] w Hb);
    [reflexivity | now right | lia].
Qed.

(** C8: on a commit history served in pages, most recent first, with
    enough steps allowed to read every page: when the boundary sha occurs,
    [commitsSinceSha] returns exactly the commits before its first
    occurrence, in order and without the boundary commit, on whichever page
    it lies; when it does not occur, or no boundary is given, it returns
    all commits of all pages. *)
Theorem commitsSinceSha_returns_commits_before_boundary
        (host : Host) (cursors : nat -> option string)
        (pages : list (list Commit)) (fuel perPage : nat) (labels : bool)
        (path : option string) (w : World) (branch : string) :
  serves_pages host cursors pages ->
  branch_known w branch ->
  length pages < fuel ->
  (forall (boundarySha : string) (before after : list Commit) (b : Commit),
      concat pages = (before ++ b :: after)%list ->
      commit_sha b = boundarySha ->
      (forall c, In c before -> commit_sha c <> boundarySha) ->
      fst (commitsSinceSha host fuel (Some boundarySha) perPage labels path w)
      = Ok before)
  /\ (forall boundarySha : string,
         (forall c, In c (concat pages) -> commit_sha c <> boundarySha) ->
         fst (commitsSinceSha host fuel (Some boundarySha) perPage labels path w)
         = Ok (concat pages))
  /\ fst (commitsSinceSha host fuel None perPage labels path w)
     = Ok (concat pages).
Proof.
  intros Hserves Hb Hfuel.
  pose proof (fun sha => commitsSinceSha_served host cursors pages fuel sha
                           perPage labels path w branch Hserves Hb Hfuel) as Hrun.
  repeat split.
  - intros boundarySha before after b Hsplit Hsha Hbefore.
    rewrite Hrun, Hsplit. f_equal. apply before_boundary_first.
    + intros c Hin. simpl. apply String.eqb_neq. now apply Hbefore.
    + simpl. now apply String.eqb_eq.
  - intros boundarySha Habsent.
    rewrite Hrun. f_equal. apply before_boundary_none.
    intros c Hin. simpl. apply String.eqb_neq. now apply Habsent.
  - rewrite Hrun. f_equal. apply before_boundary_none. reflexivity.
Qed.

Lemma paged_history_serves (pages : list (list Commit)) :
  serves_pages (Fake.paged_history pages) Fake.cursor_of pages.
Proof.
  split; [reflexivity |]. split; [reflexivity |].
  intros l opts i Hcursor. exists (Fake.cursor_of (S i)).
  simpl. unfold Fake.page_of. rewrite Hcursor, index_of_cursor_of.
  destruct (S i <? length pages)%nat; reflexivity.
Qed.

(** A history of two pages with the boundary in second place on the second
    page: the three commits before it are returned, the boundary and the
    commit after it are not. *)
Lemma commitsSinceSha_two_pages_witness :
  fst (commitsSinceSha (Fake.paged_history Fake.two_pages) 3 (Some "b2") 100
                       false None Fake.start)
  = Ok [Fake.commit "e5"; Fake.commit "d4"; Fake.commit "c3"].
Proof.
  apply (proj1 (commitsSinceSha_returns_commits_before_boundary
                  (Fake.paged_history Fake.two_pages) Fake.cursor_of
                  Fake.two_pages 3 100 false None Fake.start "main"
                  (paged_history_serves Fake.two_pages)
                  start_branch_known (le_n 3))
               "b2"
               [Fake.commit "e5"; Fake.commit "d4"; Fake.commit "c3"]
               [Fake.commit "a1"] (Fake.commit "b2")).
  - reflexivity.
  - reflexivity.
  - intros c [H|[H|[H|[]]]]; subst c; discriminate.
Defined.

(** ** Merged release pull requests *)

Lemma findMergedReleasePR_run (host : Host) (labels : list string)
      (perPage : nat) (prefix : option string) (preRelease : bool)
      (w : World) (branch : string) (pulls : list Pull) :
  branch_known w branch ->
  pulls_list host (log w) "closed" = inr pulls ->
  findMergedReleasePR host labels perPage prefix preRelease w
  = (Ok (merged_release_loop (owner (this w) ++ ":" ++ branch) labels prefix
                             preRelease pulls),
     logged w (closed_pulls_request (this w) perPage)).
Proof.
  intros Hb Hp. unfold findMergedReleasePR, bind.
  rewrite (getBaseLabel_known host w branch Hb). unfold get_this.
  now rewrite (perform_ok _ _ w pulls Hp).
Qed.

(** A record returned for a pull obeys the prefix rule. *)
Lemma merged_release_of_prefix (baseLabel : string) (labels : list string)
      (prefix : option string) (preRelease : bool) (pull : Pull)
      (r : GitHubReleasePR) :
  merged_release_of baseLabel labels prefix preRelease pull = Some r ->
  exists h package version,
    pull_head pull = Some h
    /\ match_branch (ref_label h) = Some (package, version)
    /\ prefix_rule prefix package
    /\ rp_number r = pull_number pull.
Proof.
  unfold merged_release_of.
  destruct ((length labels =? 0)%nat || hasAllLabels labels (pull_labels pull));
    [| discriminate].
  destruct (pull_head pull) as [h|] eqn:Hh; [| discriminate].
  destruct (off_base pull baseLabel); [discriminate |].
  destruct (match_branch (ref_label h)) as [[package version]|] eqn:Hm;
    [| discriminate].
  destruct (negb (Js.truthy (pull_merged_at pull))); [discriminate |].
  destruct (negb (Js.truthy (Some version))); [discriminate |].
  unfold prefix_rule.
  destruct (Js.truthy prefix) eqn:Hp; cbn [andb negb].
  - destruct (String.eqb_spec package (Js.to_string prefix)) as [Heq|Hne];
      cbn [negb]; [| discriminate].
    destruct (negb preRelease && Js.includes version "-"); [discriminate |].
    destruct (Semver.valid version); [| discriminate].
    intros H. injection H as <-. exists h, package, version.
    repeat split; assumption.
  - destruct (Js.truthy (Some package)) eqn:Hpk; [discriminate |].
    destruct (negb preRelease && Js.includes version "-"); [discriminate |].
    destruct (Semver.valid version); [| discriminate].
    intros H. injection H as <-. exists h, package, version.
    repeat split; try assumption. simpl in Hpk.
    destruct (String.eqb_spec package EmptyString); [assumption | discriminate].
Qed.

Lemma merged_release_loop_prefix (baseLabel : string) (labels : list string)
      (prefix : option string) (preRelease : bool) (pulls : list Pull)
      (r : GitHubReleasePR) :
  merged_release_loop baseLabel labels prefix preRelease pulls = Some r ->
  exists pull,
    In pull pulls
    /\ merged_release_of baseLabel labels prefix preRelease pull = Some r.
Proof.
  induction pulls as [|pull rest IH]; simpl; [discriminate |].
  destruct (merged_release_of baseLabel labels prefix preRelease pull) eqn:Hof.
  - intros H. injection H as <-. exists pull. split; [now left | assumption].
  - intros H. destruct (IH H) as [p [Hin Hp]]. exists p. split; [now right | assumption].
Qed.

(** C9: a pull that [findMergedReleasePR] returns obeys the prefix rule:
    the package extracted from its head label equals the requested prefix,
    or both are absent.  A page that holds one merged pull with base label
    [owner:main] and head label [owner:release-mypkg-v1.2.3] meeting the
    label requirement yields version [1.2.3] for the prefix [mypkg] and
    nothing when the prefix is omitted. *)
Theorem findMergedReleasePR_prefix_rule
        (host : Host) (labels : list string) (perPage : nat)
        (preRelease : bool) (w : World) (branch : string)
        (pulls : list Pull) :
  branch_known w branch ->
  pulls_list host (log w) "closed" = inr pulls ->
  (forall prefix r,
      fst (findMergedReleasePR host labels perPage prefix preRelease w)
      = Ok (Some r) ->
      exists pull h package version,
        In pull pulls
        /\ pull_head pull = Some h
        /\ match_branch (ref_label h) = Some (package, version)
        /\ prefix_rule prefix package
        /\ rp_number r = pull_number pull)
  /\ (forall pull h,
         pulls = [pull] ->
         (owner (this w) ++ ":" ++ branch) = "owner:main" ->
         off_base pull "owner:main" = false ->
         pull_head pull = Some h ->
         ref_label h = "owner:release-mypkg-v1.2.3" ->
         Js.truthy (pull_merged_at pull) = true ->
         labels = [] \/ hasAllLabels labels (pull_labels pull) = true ->
         fst (findMergedReleasePR host labels perPage (Some "mypkg") preRelease w)
         = Ok (Some (mkGitHubReleasePR (pull_number pull)
                                       (pull_merge_commit_sha pull) "1.2.3"))
         /\ fst (findMergedReleasePR host labels perPage None preRelease w)
            = Ok None).
Proof.
  intros Hb Hp. split.
  - intros prefix r.
    rewrite (findMergedReleasePR_run host labels perPage prefix preRelease w
                                     branch pulls Hb Hp).
    cbn [fst]. intros H. injection H as H.
    destruct (merged_release_loop_prefix _ _ _ _ _ _ H) as [pull [Hin Hof]].
    destruct (merged_release_of_prefix _ _ _ _ _ _ Hof)
      as [h [package [version [Hh [Hm [Hrule Hnum]]]]]].
    exists pull, h, package, version. now repeat split.
  - intros pull h Hpulls Hbase Hoff Hhead Hlabel Hmerged Hlabels.
    assert (Hreq : (length labels =? 0)%nat
                   || hasAllLabels labels (pull_labels pull) = true).
    { destruct Hlabels as [-> | ->]; [reflexivity | apply orb_true_r]. }
    rewrite !(findMergedReleasePR_run host labels perPage _ preRelease w
                                      branch pulls Hb Hp).
    rewrite Hbase, Hpulls. cbn [fst merged_release_loop].
    unfold merged_release_of.
    rewrite Hreq, Hhead, Hoff, Hlabel, Hmerged.
    replace (match_branch "owner:release-mypkg-v1.2.3")
      with (Some ("mypkg", "v1.2.3")) by (vm_compute; reflexivity).
    replace (Js.includes "v1.2.3" "-") with false by (vm_compute; reflexivity).
    replace (Semver.valid "v1.2.3") with (Some "1.2.3")
      by (vm_compute; reflexivity).
    destruct preRelease; split; reflexivity.
Qed.

(** The example of C9: the merged pull of the package [mypkg], with the
    labels [release-please] and [autorelease: pending]. *)
Lemma findMergedReleasePR_prefix_witness :
  fst (findMergedReleasePR (Fake.with_pulls_and_tags [Fake.merged_pull] [] [])
                           ["release-please"] 100 (Some "mypkg") true
                           Fake.start)
  = Ok (Some (mkGitHubReleasePR 12 (Some "abc123") "1.2.3"))
  /\ fst (findMergedReleasePR (Fake.with_pulls_and_tags [Fake.merged_pull] [] [])
                              ["release-please"] 100 None true Fake.start)
     = Ok None.
Proof.
  apply (proj2 (findMergedReleasePR_prefix_rule
                  (Fake.with_pulls_and_tags [Fake.merged_pull] [] [])
                  ["release-please"] 100 true Fake.start "main"
                  [Fake.merged_pull] start_branch_known eq_refl)
               Fake.merged_pull
               (mkPullRef "owner:release-mypkg-v1.2.3" "release-mypkg-v1.2.3"));
    try reflexivity.
  right. reflexivity.
Defined.

(** ** The latest tag *)

Lemma assoc_set_keys {V} (k k' : string) (v : V) (m : list (string * V)) :
  In k (map fst (assoc_set k' v m)) <-> k = k' \/ In k (map fst m).
Proof.
  induction m as [|[k0 v0] m IH]; simpl.
  - intuition congruence.
  - destruct (String.eqb_spec k0 k'); simpl.
    + subst. intuition congruence.
    + rewrite IH. intuition congruence.
Qed.



Lemma collect_tags_concat (prefix : option string)
      (pages : list (list TagItem)) (tags : list (string * GitHubTag)) :
  fold_left (fun tags page => fold_left (add_tag prefix) page tags) pages tags
  = fold_left (add_tag prefix) (concat pages) tags.
Proof.
  revert tags. induction pages as [|page pages IH]; intros tags; simpl.
  - reflexivity.
  - rewrite IH, fold_left_app. reflexivity.
Qed.





Lemma allTags_run (host : Host) (prefix : option string) (w : World)
      (pages : list (list TagItem)) :
  tags_list host (log w) = inr pages ->
  allTags host prefix w
  = (Ok (collect_tags prefix pages), logged w (tags_request w)).
Proof.
  intros Ht. unfold allTags, bind, get_this, get_probotMode.
  now rewrite (perform_ok _ _ w pages Ht).
Qed.

Lemma latestTagFallback_run (host : Host) (prefix : option string)
      (preRelease : bool) (w : World) (pages : list (list TagItem)) :
  tags_list host (log w) = inr pages ->
  fst (latestTagFallback host prefix preRelease w)
  = match select_latest preRelease (collect_tags prefix pages) with
    | inl e => Throw e
    | inr r => Ok r
    end.
Proof.
  intros Ht. unfold latestTagFallback, bind.
  rewrite (allTags_run host prefix w pages Ht).
  destruct (select_latest preRelease (collect_tags prefix pages)); reflexivity.
Qed.





(** C4 (the code departs from the claim): with exactly the tags [1.0.0-2]
    and [1.0.0-10], in either order, the comparator rewrites the versions
    to [1.0.0-000002] and [1.0.0-000010]; a numeric pre-release identifier
    with leading zeros is not a version, so the comparison throws a
    [TypeError] and [latestTagFallback] returns no tag. *)
Theorem latestTagFallback_numeric_prerelease_throws
        (host : Host) (w : World) (sha2 sha10 : string)
        (pages : list (list TagItem)) :
  tags_list host (log w) = inr pages ->
  pages = [[mkTagItem "1.0.0-2" sha2; mkTagItem "1.0.0-10" sha10]]
  \/ pages = [[mkTagItem "1.0.0-10" sha10; mkTagItem "1.0.0-2" sha2]] ->
  exists e,
    fst (latestTagFallback host None true w) = Throw e
    /\ err_name e = "TypeError".
Proof.
  intros Ht Hpages.
  rewrite (latestTagFallback_run host None true w pages Ht).
  destruct Hpages as [-> | ->]; eexists; split; reflexivity.
Qed.

(** The failing input of C4, run on a host that lists the two tags. *)
Lemma latestTagFallback_numeric_prerelease_witness :
  exists e,
    fst (latestTagFallback
           (Fake.with_pulls_and_tags [] []
              [[mkTagItem "1.0.0-2" "aaa"; mkTagItem "1.0.0-10" "bbb"]])
           None true Fake.start) = Throw e
    /\ err_name e = "TypeError".
Proof.
  apply (latestTagFallback_numeric_prerelease_throws
           (Fake.with_pulls_and_tags [] []
              [[mkTagItem "1.0.0-2" "aaa"; mkTagItem "1.0.0-10" "bbb"]])
           Fake.start "aaa" "bbb"
           [[mkTagItem "1.0.0-2" "aaa"; mkTagItem "1.0.0-10" "bbb"]]
           eq_refl (or_introl eq_refl)).
Defined.

(** ** The embedding mode *)

Lemma construct_all_flag (optionss : list GitHubOptions) (probotMode : bool) :
  construct_all optionss probotMode = probotMode || existsb injects optionss.
Proof.
  revert probotMode. induction optionss as [|options rest IH];
    intros probotMode; simpl.
  - now rewrite orb_false_r.
  - rewrite IH. unfold constructor, injects.
    destruct (o_octokitAPIs options); simpl.
    + now rewrite orb_true_r.
    + reflexivity.
Qed.

(** C3 (as amended): [probotMode] is one variable of the module, shared by
    all instances.  It starts [false]; constructing instances leaves it set
    exactly when one of them was given injected APIs, and the decoration of
    any instance reads it at request time.  So an instance built without
    injected APIs adds the authorization headers to paginated and graphql
    requests when it is the only instance, and leaves the requests as they
    are once an instance with injected APIs has been constructed, before or
    after it. *)
Theorem probotMode_is_shared_by_instances
        (injected plain : GitHubOptions) (opts : EndpointOptions)
        (query : GraphqlOpts) :
  injects injected = true ->
  injects plain = false ->
  let this := fst (constructor plain false) in
  (forall probotMode, fst (constructor plain probotMode) = this)
  /\ construct_all [plain] false = false
  /\ construct_all [injected; plain] false = true
  /\ construct_all [plain; injected] false = true
  /\ decoratePaginateOpts false this opts
     = mkEndpointOptions (e_method opts) (e_url opts)
                         [("Authorization", authorization this)]
  /\ decoratePaginateOpts true this opts = opts
  /\ g_headers (decorateGraphqlOpts false this query)
     = [("authorization", authorization this);
        ("content-type", "application/vnd.github.v3+json")]
  /\ decorateGraphqlOpts true this query = query.
Proof.
  intros Hi Hp this.
  split; [| rewrite !construct_all_flag; simpl; rewrite Hi, Hp;
            repeat split; reflexivity].
  intros probotMode. subst this. unfold constructor.
  unfold injects in Hp. destruct (o_octokitAPIs plain); [discriminate |].
  reflexivity.
Qed.

Lemma probotMode_is_shared_witness :
  construct_all [Fake.injected_options; Fake.plain_options] false = true
  /\ decoratePaginateOpts true (fst (constructor Fake.plain_options false))
                          Fake.tags_endpoint
     = Fake.tags_endpoint.
Proof.
  pose proof (probotMode_is_shared_by_instances
                Fake.injected_options Fake.plain_options Fake.tags_endpoint
                (mkGraphqlOpts QueryCommitsWithFiles None 64 "owner" None 100
                               "repo" "refs/heads/main" None [])
                eq_refl eq_refl) as H.
  cbv zeta in H. split; [apply H | apply H].
Defined.

(** C3 as stated fails: the decoration that an instance without injected
    APIs applies to a paginated request differs according to whether an
    instance with injected APIs was constructed before it. *)
Lemma probotMode_leaks_between_instances :
  decoratePaginateOpts
    (construct_all [Fake.plain_options] false)
    (fst (constructor Fake.plain_options false)) Fake.tags_endpoint
  <> decoratePaginateOpts
       (construct_all [Fake.injected_options; Fake.plain_options] false)
       (fst (constructor Fake.plain_options
                         (construct_all [Fake.injected_options] false)))
       Fake.tags_endpoint.
Proof. vm_compute. discriminate. Qed.

(** ** File contents *)

Lemma getFileContentsWithSimpleAPI_run (host : Host)
      (base64_to_utf8 : string -> string) (path branch : string) (w : World) :
  getFileContentsWithSimpleAPI host base64_to_utf8 path branch w
  = match contents_get host (log w) path (qualifyRef branch) with
    | inr data =>
        (Ok (mkGitHubFileContents (fd_sha data) (fd_content data)
                                  (base64_to_utf8 (fd_content data))),
         logged w (contents_request (this w) path branch))
    | inl err => (Throw err, logged w (contents_request (this w) path branch))
    end.
Proof.
  unfold getFileContentsWithSimpleAPI, bind, get_this, perform,
    contents_request, logged.
  assert (Hq : Js.truthy (Some (qualifyRef branch)) = true).
  { unfold qualifyRef. destruct (negb (Js.includes branch "/")) eqn:Hs.
    - reflexivity.
    - simpl. destruct branch; [discriminate | reflexivity]. }
  rewrite Hq.
  destruct (contents_get host (log w) path (qualifyRef branch)); reflexivity.
Qed.

Lemma getFileContentsWithDataAPI_missing (host : Host)
      (base64_to_utf8 : string -> string) (path branch : string) (w : World)
      (tree : list TreeEntry) :
  tree_get host (log w) branch = inr tree ->
  find (has_path path) tree = None ->
  getFileContentsWithDataAPI host base64_to_utf8 path branch w
  = (Throw (missing_path path), logged w (tree_request (this w) branch)).
Proof.
  intros Ht Hf. unfold getFileContentsWithDataAPI, bind, get_this.
  rewrite (perform_ok _ _ w tree Ht).
  unfold has_path in Hf. now rewrite Hf.
Qed.


(** [getFileContentsOnBranch] by the answer to the contents request. *)
Lemma getFileContentsOnBranch_run (host : Host)
      (base64_to_utf8 : string -> string) (path branch : string) (w : World) :
  getFileContentsOnBranch host base64_to_utf8 path branch w
  = match contents_get host (log w) path (qualifyRef branch) with
    | inr data =>
        (Ok (mkGitHubFileContents (fd_sha data) (fd_content data)
                                  (base64_to_utf8 (fd_content data))),
         logged w (contents_request (this w) path branch))
    | inl err =>
        if status_is err 403
        then getFileContentsWithDataAPI
               host base64_to_utf8 path branch
               (logged w (contents_request (this w) path branch))
        else (Throw err, logged w (contents_request (this w) path branch))
    end.
Proof.
  unfold getFileContentsOnBranch, try_catch.
  rewrite getFileContentsWithSimpleAPI_run.
  destruct (contents_get host (log w) path (qualifyRef branch)) as [err|data];
    [| reflexivity].
  destruct (status_is err 403); reflexivity.
Qed.




(** ** The change set *)

Lemma bind_assoc {A B C} (m : M A) (f : A -> M B) (g : B -> M C) (w : World) :
  bind (bind m f) g w = bind m (fun a => bind (f a) g) w.
Proof. unfold bind. destruct (m w) as [[a|e|] w']; reflexivity. Qed.

Lemma bind_ext {A B} (m : M A) (f g : A -> M B) (w : World) :
  (forall a w', f a w' = g a w') -> bind m f w = bind m g w.
Proof.
  intros H. unfold bind. destruct (m w) as [[a|e|] w']; [apply H | |];
    reflexivity.
Qed.

Lemma getChangeSet_loop_app (host : Host) (base64_to_utf8 : string -> string)
      (pre post : list Update) (branch : string) :
  forall (changes : Changes) (w : World),
    getChangeSet_loop host base64_to_utf8 (pre ++ post) branch changes w
    = bind (getChangeSet_loop host base64_to_utf8 pre branch changes)
           (fun changes' =>
              getChangeSet_loop host base64_to_utf8 post branch changes')
           w.
Proof.
  induction pre as [|update pre IH]; intros changes w.
  - reflexivity.
  - cbn [app getChangeSet_loop]. rewrite bind_assoc. apply bind_ext.
    intros r w'. destruct r as [c| |].
    + destruct (Js.truthy (updateContent update _)); apply IH.
    + destruct (Js.truthy (updateContent update _)); apply IH.
    + apply IH.
Qed.

(** Reading an update whose contents request is refused with 403 and whose
    path the tree lacks. *)
Lemma read_update_missing_path (host : Host)
      (base64_to_utf8 : string -> string) (update : Update) (branch : string)
      (w : World) (err : JsError) (tree : list TreeEntry) :
  u_contents update = None ->
  contents_get host (log w) (u_path update) (qualifyRef branch) = inl err ->
  status_is err 403 = true ->
  tree_get host (log w ++ [contents_request (this w) (u_path update) branch])
           branch = inr tree ->
  find (has_path (u_path update)) tree = None ->
  fst (read_update host base64_to_utf8 update branch w)
  = Throw (missing_path (u_path update)).
Proof.
  intros Hc Hd Hs Ht Hf. unfold read_update. rewrite Hc.
  unfold try_catch, bind.
  rewrite getFileContentsOnBranch_run, Hd, Hs.
  rewrite (getFileContentsWithDataAPI_missing
             host base64_to_utf8 (u_path update) branch
             (logged w (contents_request (this w) (u_path update) branch))
             tree Ht Hf).
  reflexivity.
Qed.

(** C10: the error for a path that the tree lacks is a plain [Error]
    without a status, so [getChangeSet] does not take it for a missing
    file: when the updates before it have been processed and the update at
    hand, with no contents loaded, meets a refusal with status 403 and a
    tree without its path, [getChangeSet] rethrows that error and builds no
    change set, whether the update may create the file or not. *)
Theorem getChangeSet_rethrows_missing_path
        (host : Host) (base64_to_utf8 : string -> string)
        (pre post : list Update) (update : Update) (branch : string)
        (w w1 : World) (changes : Changes) (err : JsError)
        (tree : list TreeEntry) :
  getChangeSet_loop host base64_to_utf8 pre branch [] w = (Ok changes, w1) ->
  u_contents update = None ->
  contents_get host (log w1) (u_path update) (qualifyRef branch) = inl err ->
  status_is err 403 = true ->
  tree_get host (log w1 ++ [contents_request (this w1) (u_path update) branch])
           branch = inr tree ->
  find (has_path (u_path update)) tree = None ->
  fst (getChangeSet host base64_to_utf8 (pre ++ update :: post) branch w)
  = Throw (missing_path (u_path update))
  /\ err_name (missing_path (u_path update)) = "Error"
  /\ err_status (missing_path (u_path update)) = None
  /\ status_is (missing_path (u_path update)) 404 = false
  /\ status_is (missing_path (u_path update)) 403 = false.
Proof.
  intros Hpre Hc Hd Hs Ht Hf. repeat split.
  unfold getChangeSet. rewrite getChangeSet_loop_app. unfold bind at 1.
  rewrite Hpre. cbn [getChangeSet_loop]. unfold bind.
  pose proof (read_update_missing_path host base64_to_utf8 update branch w1
                err tree Hc Hd Hs Ht Hf) as Hread.
  destruct (read_update host base64_to_utf8 update branch w1) as [[r|e|] w2];
    cbn [fst] in Hread; try discriminate.
  injection Hread as ->. reflexivity.
Qed.

(** An update that may create its file, read from a host that refuses the
    contents request with 403 and whose tree is empty: the change set is
    not built. *)
Lemma getChangeSet_rethrows_missing_path_witness :
  u_create Fake.changelog_update = true
  /\ fst (getChangeSet (Fake.guarded_files 403 []) Fake.identity
                       [Fake.changelog_update] "main" Fake.start)
     = Throw (missing_path "CHANGELOG.md").
Proof.
  split; [reflexivity |].
  apply (getChangeSet_rethrows_missing_path
           (Fake.guarded_files 403 []) Fake.identity [] []
           Fake.changelog_update "main" Fake.start Fake.start []
           (HttpError 403) []
           eq_refl eq_refl eq_refl eq_refl eq_refl eq_refl).
Defined.

(** ** Opening or updating the release pull request *)







(** * Further properties of the client *)

(** ** The default branch *)

Lemma getDefaultBranch_resolved (host : Host) (w : World) (branch : string) :
  Js.truthy (defaultBranch (this w)) = false ->
  repos_get host (log w) = inr branch ->
  branch <> EmptyString ->
  exists w1,
    getDefaultBranch host w = (Ok branch, w1)
    /\ log w1 = (log w ++ [ReposGet (authorization (this w))])%list
    /\ defaultBranch (this w1) = Some branch.
Proof.
  intros Hunset Hget Hne. eexists. split; [| split].
  - unfold getDefaultBranch, bind, get_this. rewrite Hunset.
    rewrite (perform_ok _ _ w branch Hget). reflexivity.
  - reflexivity.
  - reflexivity.
Qed.

(** X1: on an instance whose default branch is not resolved, a successful
    [getDefaultBranch] sends one repository request, stores the branch in
    the instance and leaves every other field as it was; from then on it
    answers with the stored branch and sends nothing. *)
Theorem getDefaultBranch_resolves_once
        (host : Host) (w : World) (branch : string) :
  Js.truthy (defaultBranch (this w)) = false ->
  repos_get host (log w) = inr branch ->
  branch <> EmptyString ->
  exists w1,
    getDefaultBranch host w = (Ok branch, w1)
    /\ log w1 = (log w ++ [ReposGet (authorization (this w))])%list
    /\ defaultBranch (this w1) = Some branch
    /\ (token (this w1), owner (this w1), repo (this w1), apiUrl (this w1),
        proxyKey (this w1), apis (this w1), probotMode w1)
       = (token (this w), owner (this w), repo (this w), apiUrl (this w),
          proxyKey (this w), apis (this w), probotMode w)
    /\ getDefaultBranch host w1 = (Ok branch, w1).
Proof.
  intros Hunset Hget Hne.
  set (w1 := mkWorld (probotMode w)
                     (mkGitHub (Some branch) (token (this w)) (owner (this w))
                               (repo (this w)) (apiUrl (this w))
                               (proxyKey (this w)) (apis (this w)))
                     (log w ++ [ReposGet (authorization (this w))])%list).
  exists w1.
  assert (Hrun : getDefaultBranch host w = (Ok branch, w1)).
  { unfold getDefaultBranch, bind, get_this. rewrite Hunset.
    rewrite (perform_ok _ _ w branch Hget). reflexivity. }
  repeat split; try assumption; try reflexivity.
  apply getDefaultBranch_known. split; [reflexivity | assumption].
Qed.

Lemma getDefaultBranch_resolves_once_witness :
  exists w1,
    getDefaultBranch
      (mkHost (fun _ => inr "trunk") (fun _ _ => Fake.refused)
              (fun _ _ => Fake.refused) (fun _ => Fake.refused)
              (fun _ _ _ => Fake.refused) (fun _ _ => Fake.refused)
              (fun _ _ => Fake.refused) (fun _ _ => Fake.refused)
              (fun _ _ _ => Fake.refused))
      (mkWorld false (fst (constructor
                             (mkGitHubOptions None (Some "t0k3n") "owner" "repo"
                                              None None None) false)) [])
    = (Ok "trunk", w1)
    /\ log w1 = [ReposGet "token t0k3n"].
Proof.
  destruct (getDefaultBranch_resolves_once
              (mkHost (fun _ => inr "trunk") (fun _ _ => Fake.refused)
                      (fun _ _ => Fake.refused) (fun _ => Fake.refused)
                      (fun _ _ _ => Fake.refused) (fun _ _ => Fake.refused)
                      (fun _ _ => Fake.refused) (fun _ _ => Fake.refused)
                      (fun _ _ _ => Fake.refused))
              (mkWorld false (fst (constructor
                             (mkGitHubOptions None (Some "t0k3n") "owner" "repo"
                                              None None None) false)) [])
              "trunk" eq_refl eq_refl)
    as [w1 [Hrun [Hlog _]]].
  - discriminate.
  - exists w1. split; [exact Hrun | exact Hlog].
Defined.

(** ** Qualified refs *)

Lemma prefix_app_left (sub s t : string) :
  String.prefix sub s = true -> String.prefix sub (s ++ t) = true.
Proof.
  revert s. induction sub as [|d sub IH]; intros s H.
  - destruct (s ++ t); reflexivity.
  - destruct s as [|c s]; [discriminate |].
    simpl in *. destruct (ascii_dec d c); [now apply IH | discriminate].
Qed.

Lemma includes_app_left (s t sub : string) :
  Js.includes s sub = true -> Js.includes (s ++ t) sub = true.
Proof.
  induction s as [|c s IH]; intros H.
  - destruct t as [|c' t']; [exact H |].
    cbn [Js.includes] in H. rewrite orb_false_r in H.
    cbn [append Js.includes]. apply orb_true_iff. left.
    now apply (prefix_app_left sub "" (String c' t')).
  - cbn [Js.includes] in H. apply orb_true_iff in H.
    change (String c s ++ t) with (String c (s ++ t)).
    cbn [Js.includes]. apply orb_true_iff. destruct H as [H | H].
    + left. now apply (prefix_app_left sub (String c s) t).
    + right. now apply IH.
Qed.

(** X2: [qualifyRef] always yields a name that holds a [/], keeps a name
    that already holds one, and applying it twice is applying it once. *)
Theorem qualifyRef_idempotent (refName : string) :
  Js.includes (qualifyRef refName) "/" = true
  /\ (Js.includes refName "/" = true -> qualifyRef refName = refName)
  /\ (Js.includes refName "/" = false ->
      qualifyRef refName = "refs/heads/" ++ refName)
  /\ qualifyRef (qualifyRef refName) = qualifyRef refName.
Proof.
  assert (Hq : Js.includes (qualifyRef refName) "/" = true).
  { unfold qualifyRef. destruct (Js.includes refName "/") eqn:Hs; simpl.
    - exact Hs.
    - apply (includes_app_left "refs/heads/" refName "/"). reflexivity. }
  split; [exact Hq |]. split; [| split].
  - intros H. unfold qualifyRef. now rewrite H.
  - intros H. unfold qualifyRef. now rewrite H.
  - unfold qualifyRef at 1. now rewrite Hq.
Qed.

(** ** Labels *)

Lemma has_label_In (observed : list string) (l : string) :
  has_label observed l = true <-> In l observed.
Proof.
  unfold has_label. rewrite existsb_exists. split.
  - intros [x [Hin Heq]]. apply String.eqb_eq in Heq. now subst.
  - intros Hin. exists l. split; [assumption | apply String.eqb_refl].
Qed.

Lemma hasAllLabels_In (labelsA labelsB : list string) :
  hasAllLabels labelsA labelsB = true
  <-> forall l, In l labelsA -> In l labelsB.
Proof.
  rewrite hasAllLabels_forallb, forallb_forall.
  split; intros H l Hin; apply has_label_In; now apply H.
Qed.

(** X3: [hasAllLabels(labelsA, labelsB)] holds exactly when every label of
    [labelsA] occurs in [labelsB]; in particular it holds of no label. *)
Theorem hasAllLabels_superset (labelsA labelsB : list string) :
  (hasAllLabels labelsA labelsB = true
   <-> forall l, In l labelsA -> In l labelsB)
  /\ hasAllLabels [] labelsB = true.
Proof. split; [apply hasAllLabels_In | reflexivity]. Qed.

(** X4: with at least one required label, [findOpenReleasePRs] returns, in
    listing order, exactly the open pulls whose base label is the base
    label of the instance and that carry every required label. *)
Theorem findOpenReleasePRs_filters_by_base_and_labels
        (host : Host) (labels : list string) (perPage : nat) (w : World)
        (branch : string) (pulls : list Pull) :
  branch_known w branch ->
  pulls_list host (log w) "open" = inr pulls ->
  labels <> [] ->
  exists result,
    fst (findOpenReleasePRs host labels perPage w) = Ok result
    /\ result = filter (open_release_keeps (owner (this w) ++ ":" ++ branch)
                                           labels) pulls
    /\ forall pull,
        In pull result
        <-> In pull pulls
            /\ (exists b, pull_base pull = Some b
                          /\ ref_label b = owner (this w) ++ ":" ++ branch)
            /\ forall l, In l labels -> In l (pull_labels pull).
Proof.
  intros Hb Hp Hne. eexists. split; [| split; [reflexivity |]].
  - now rewrite (findOpenReleasePRs_run host labels perPage w branch pulls Hb Hp).
  - intros pull. rewrite filter_In. unfold open_release_keeps.
    rewrite andb_true_iff, open_labels_loop_spec.
    destruct labels as [|l0 labels']; [contradiction |].
    rewrite forallb_forall. unfold off_base.
    split.
    + intros [Hin [Hbase Hall]]. split; [assumption |]. split.
      * destruct (pull_base pull) as [b|]; [| discriminate].
        exists b. split; [reflexivity |].
        apply String.eqb_eq. now destruct (String.eqb (ref_label b) _).
      * intros l Hl. apply has_label_In. now apply Hall.
    + intros [Hin [[b [Hbase Hlabel]] Hall]]. split; [assumption |]. split.
      * rewrite Hbase, Hlabel, String.eqb_refl. reflexivity.
      * intros l Hl. apply has_label_In. now apply Hall.
Qed.

Lemma findOpenReleasePRs_filters_witness :
  fst (findOpenReleasePRs
         (Fake.with_pulls_and_tags [] [Fake.stale_pull; Fake.merged_pull] [])
         ["release-please"] 100 Fake.start)
  = Ok [Fake.merged_pull].
Proof.
  destruct (findOpenReleasePRs_filters_by_base_and_labels
              (Fake.with_pulls_and_tags [] [Fake.stale_pull; Fake.merged_pull] [])
              ["release-please"] 100 Fake.start "main"
              [Fake.stale_pull; Fake.merged_pull]
              start_branch_known eq_refl)
    as [result [Hrun [Hfilter _]]].
  - discriminate.
  - rewrite Hrun, Hfilter. reflexivity.
Defined.

(** ** Merged release pulls and the latest tag *)

Lemma merged_release_loop_first (baseLabel : string) (labels : list string)
      (prefix : option string) (preRelease : bool) (pulls : list Pull)
      (r : GitHubReleasePR) :
  merged_release_loop baseLabel labels prefix preRelease pulls = Some r ->
  exists before pull after,
    pulls = (before ++ pull :: after)%list
    /\ (forall q, In q before ->
                  merged_release_of baseLabel labels prefix preRelease q = None)
    /\ merged_release_of baseLabel labels prefix preRelease pull = Some r.
Proof.
  induction pulls as [|p rest IH]; simpl; [discriminate |].
  destruct (merged_release_of baseLabel labels prefix preRelease p) eqn:Hof.
  - intros H. injection H as <-. exists [], p, rest.
    split; [reflexivity |]. split; [intros q [] | assumption].
  - intros H. destruct (IH H) as [before [pull [after [-> [Hbefore Hpull]]]]].
    exists (p :: before), pull, after. split; [reflexivity |].
    split; [| assumption].
    intros q [<- | Hin]; [assumption | now apply Hbefore].
Qed.

Lemma merged_release_of_sound (baseLabel : string) (labels : list string)
      (prefix : option string) (preRelease : bool) (pull : Pull)
      (r : GitHubReleasePR) :
  merged_release_of baseLabel labels prefix preRelease pull = Some r ->
  (labels = [] \/ forall l, In l labels -> In l (pull_labels pull))
  /\ off_base pull baseLabel = false
  /\ Js.truthy (pull_merged_at pull) = true
  /\ rp_number r = pull_number pull
  /\ rp_sha r = pull_merge_commit_sha pull
  /\ exists h package version,
      pull_head pull = Some h
      /\ match_branch (ref_label h) = Some (package, version)
      /\ Semver.valid version = Some (rp_version r)
      /\ (preRelease = false -> Js.includes version "-" = false).
Proof.
  unfold merged_release_of.
  destruct ((length labels =? 0)%nat || hasAllLabels labels (pull_labels pull))
    eqn:Hlabels; [| discriminate].
  destruct (pull_head pull) as [h|] eqn:Hh; [| discriminate].
  destruct (off_base pull baseLabel) eqn:Hoff; [discriminate |].
  destruct (match_branch (ref_label h)) as [[package version]|] eqn:Hm;
    [| discriminate].
  destruct (Js.truthy (pull_merged_at pull)) eqn:Hmerged; [| discriminate].
  cbn [negb].
  destruct (negb (Js.truthy (Some version))); [discriminate |].
  destruct (Js.truthy prefix
            && negb (String.eqb package (Js.to_string prefix)));
    [discriminate |].
  destruct (negb (Js.truthy prefix) && Js.truthy (Some package));
    [discriminate |].
  destruct (negb preRelease && Js.includes version "-") eqn:Hpre;
    [discriminate |].
  destruct (Semver.valid version) as [normalized|] eqn:Hvalid; [| discriminate].
  intros H. injection H as <-. cbn [rp_number rp_sha rp_version].
  split.
  { apply orb_true_iff in Hlabels. destruct Hlabels as [Hz | Hall].
    - left. apply Nat.eqb_eq in Hz. now destruct labels.
    - right. now apply hasAllLabels_In. }
  repeat split.
  exists h, package, version. repeat split; try assumption.
  intros ->. exact Hpre.
Qed.

(** X5: the record that [findMergedReleasePR] returns is built from the
    first listed pull that passes all its tests: the pull carries the
    required labels, is based on the base label of the instance, has a
    merge date and a head label of the release form; the record holds its
    number, its merge commit and the normalized version of the branch
    name, which has no hyphen when pre-releases are excluded.  No pull
    listed before it passes the tests. *)
Theorem findMergedReleasePR_returns_first_merged_release
        (host : Host) (labels : list string) (perPage : nat)
        (prefix : option string) (preRelease : bool) (w : World)
        (branch : string) (pulls : list Pull) (r : GitHubReleasePR) :
  branch_known w branch ->
  pulls_list host (log w) "closed" = inr pulls ->
  fst (findMergedReleasePR host labels perPage prefix preRelease w)
  = Ok (Some r) ->
  exists before pull after h package version,
    pulls = (before ++ pull :: after)%list
    /\ (forall q, In q before ->
                  merged_release_of (owner (this w) ++ ":" ++ branch) labels
                                    prefix preRelease q = None)
    /\ (labels = [] \/ forall l, In l labels -> In l (pull_labels pull))
    /\ off_base pull (owner (this w) ++ ":" ++ branch) = false
    /\ Js.truthy (pull_merged_at pull) = true
    /\ pull_head pull = Some h
    /\ match_branch (ref_label h) = Some (package, version)
    /\ r = mkGitHubReleasePR (pull_number pull) (pull_merge_commit_sha pull)
                             (rp_version r)
    /\ Semver.valid version = Some (rp_version r)
    /\ (preRelease = false -> Js.includes version "-" = false).
Proof.
  intros Hb Hp.
  rewrite (findMergedReleasePR_run host labels perPage prefix preRelease w
                                   branch pulls Hb Hp).
  cbn [fst]. intros H. injection H as H.
  destruct (merged_release_loop_first _ _ _ _ _ _ H)
    as [before [pull [after [Hsplit [Hbefore Hof]]]]].
  destruct (merged_release_of_sound _ _ _ _ _ _ Hof)
    as (Hlabels & Hoff & Hmerged & Hnum & Hsha & h & package & version
        & Hh & Hm & Hvalid & Hpre).
  exists before, pull, after, h, package, version.
  repeat split; try assumption.
  destruct r as [n s v]. cbn in *. now subst.
Qed.

Lemma findMergedReleasePR_returns_first_witness :
  exists before pull after,
    [Fake.stale_pull; Fake.merged_pull] = (before ++ pull :: after)%list
    /\ Js.truthy (pull_merged_at pull) = true
    /\ pull_number pull = 12%Z.
Proof.
  destruct (findMergedReleasePR_returns_first_merged_release
              (Fake.with_pulls_and_tags [Fake.stale_pull; Fake.merged_pull] [] [])
              [] 100 (Some "mypkg") false Fake.start "main"
              [Fake.stale_pull; Fake.merged_pull]
              (mkGitHubReleasePR 12 (Some "abc123") "1.2.3")
              start_branch_known eq_refl eq_refl)
    as (before & pull & after & h & package & version
        & Hsplit & _ & _ & _ & Hmerged & _ & _ & Hr & _).
  exists before, pull, after. repeat split; try assumption.
  injection Hr as Hn _. now symmetry.
Defined.



(** ** The tags object *)



Lemma assoc_set_NoDup {V} (k : string) (v : V) (m : list (string * V)) :
  NoDup (map fst m) -> NoDup (map fst (assoc_set k v m)).
Proof.
  induction m as [|[k0 v0] m IH]; simpl; intros Hnd.
  - constructor; [intros [] | constructor].
  - inversion Hnd as [|x l Hnotin Hrest]; subst.
    destruct (String.eqb_spec k0 k) as [-> | Hk]; simpl.
    + now constructor.
    + constructor; [| now apply IH].
      rewrite assoc_set_keys. intros [Heq | Hin]; [congruence | contradiction].
Qed.

Lemma assoc_get_in_keys {V} (k : string) (m : list (string * V)) :
  In k (map fst m) -> exists v, assoc_get k m = Some v.
Proof.
  induction m as [|[k0 v0] m IH]; simpl; [intros [] |].
  intros [-> | Hin].
  - rewrite String.eqb_refl. now exists v0.
  - destruct (String.eqb k0 k); [now exists v0 | now apply IH].
Qed.






(** Every entry of the tags object is filed under its own version. *)
Lemma fold_add_tag_versions (prefix : option string) (l : list TagItem)
      (tags : list (string * GitHubTag)) :
  (forall k t, In (k, t) tags -> gt_version t = k) ->
  forall k t, In (k, t) (fold_left (add_tag prefix) l tags) -> gt_version t = k.
Proof.
  revert tags. induction l as [|data l IH]; intros tags Hinv; simpl.
  - assumption.
  - apply IH. intros k t. unfold add_tag.
    destruct (Js.truthy prefix && _); [apply Hinv |].
    destruct (Semver.valid _) as [version|]; [| apply Hinv].
    clear IH. induction tags as [|[k0 t0] tags IHt]; simpl.
    + intros [H | []]. injection H as <- <-. reflexivity.
    + destruct (String.eqb_spec k0 version) as [-> | Hk]; simpl.
      * intros [H | Hin].
        -- injection H as <- <-. reflexivity.
        -- apply Hinv. now right.
      * intros [H | Hin].
        -- apply Hinv. left. exact H.
        -- apply IHt; [| exact Hin]. intros k' t' H'. apply Hinv. now right.
Qed.

Lemma assoc_get_In {V} (k : string) (v : V) (m : list (string * V)) :
  assoc_get k m = Some v -> In (k, v) m.
Proof.
  induction m as [|[k0 v0] m IH]; simpl; [discriminate |].
  destruct (String.eqb_spec k0 k) as [-> | Hk].
  - intros H. injection H as <-. now left.
  - intros H. right. now apply IH.
Qed.



Lemma kept_versions_in_keys (preRelease : bool)
      (tags : list (string * GitHubTag)) (v : string) :
  In v (kept_versions preRelease tags) -> In v (map fst tags).
Proof. unfold kept_versions. intros H. now apply filter_In in H. Qed.

(** X8: when exactly one version is kept, [latestTagFallback] returns its
    tag without comparing anything, so the result does not depend on the
    form of the pre-release part. *)
Theorem latestTagFallback_single_version
        (host : Host) (prefix : option string) (preRelease : bool)
        (w : World) (pages : list (list TagItem)) (version : string) :
  tags_list host (log w) = inr pages ->
  kept_versions preRelease (collect_tags prefix pages) = [version] ->
  exists tag,
    fst (latestTagFallback host prefix preRelease w) = Ok (Some tag)
    /\ assoc_get version (collect_tags prefix pages) = Some tag
    /\ gt_version tag = version.
Proof.
  intros Ht Hkept.
  assert (Hin : In version (map fst (collect_tags prefix pages))).
  { apply (kept_versions_in_keys preRelease). rewrite Hkept. now left. }
  destruct (assoc_get_in_keys _ _ Hin) as [tag Hget].
  exists (mkGitHubTag (gt_name tag) (gt_sha tag) (gt_version tag)).
  assert (Heta : mkGitHubTag (gt_name tag) (gt_sha tag) (gt_version tag) = tag)
    by now destruct tag.
  rewrite (latestTagFallback_run host prefix preRelease w pages Ht).
  unfold select_latest. rewrite Hkept. cbn. rewrite Hget.
  split; [reflexivity |]. rewrite Heta. split; [reflexivity |].
  apply assoc_get_In in Hget. unfold collect_tags in Hget.
  rewrite collect_tags_concat in Hget.
  apply (fold_add_tag_versions prefix (concat pages) [] (fun _ _ H => match H with end)
                               version tag Hget).
Qed.

Lemma latestTagFallback_single_version_witness :
  exists tag,
    fst (latestTagFallback
           (Fake.with_pulls_and_tags
              [] [] [[mkTagItem "nightly" "n"; mkTagItem "1.0.0-2" "aaa"]])
           None true Fake.start) = Ok (Some tag)
    /\ gt_name tag = "1.0.0-2".
Proof.
  destruct (latestTagFallback_single_version
              (Fake.with_pulls_and_tags
                 [] [] [[mkTagItem "nightly" "n"; mkTagItem "1.0.0-2" "aaa"]])
              None true Fake.start
              [[mkTagItem "nightly" "n"; mkTagItem "1.0.0-2" "aaa"]]
              "1.0.0-2" eq_refl eq_refl)
    as (tag & Hrun & Hget & _).
  exists tag. split; [exact Hrun |].
  vm_compute in Hget. injection Hget as <-. reflexivity.
Defined.

(** ** The change set *)

Lemma assoc_set_In {V} (k p : string) (v c : V) (m : list (string * V)) :
  In (p, c) (assoc_set k v m) -> (p, c) = (k, v) \/ In (p, c) m.
Proof.
  induction m as [|[k0 v0] m IH]; simpl.
  - intros [H | []]. left. now symmetry.
  - destruct (String.eqb_spec k0 k) as [-> | Hk]; simpl.
    + intros [H | Hin]; [left; now symmetry | right; now right].
    + intros [H | Hin]; [right; now left |].
      destruct (IH Hin) as [Heq | Hm]; [now left | right; now right].
Qed.

Lemma truthy_Some (o : option string) :
  Js.truthy o = true -> exists s, o = Some s /\ s <> EmptyString.
Proof.
  destruct o as [s|]; simpl; [| discriminate].
  destruct (String.eqb_spec s EmptyString); [discriminate |].
  intros _. now exists s.
Qed.

Lemma stage_ok (updates : list Update) (update : Update)
      (text : option string) (changes : Changes) :
  In update updates ->
  change_set_ok updates changes ->
  change_set_ok updates (stage update text changes).
Proof.
  intros Hin [Hnd Hall]. unfold stage.
  destruct (Js.truthy (updateContent update text)) eqn:Ht;
    [| split; assumption].
  destruct (truthy_Some _ Ht) as [s [Hs Hne]].
  split; [now apply assoc_set_NoDup |].
  intros path change Hc. apply assoc_set_In in Hc.
  destruct Hc as [Heq | Hm]; [| now apply Hall].
  injection Heq as -> ->. rewrite Hs. cbn.
  split; [reflexivity |]. split; [assumption |].
  exists update, text. now repeat split.
Qed.

Lemma getChangeSet_loop_step (host : Host)
      (base64_to_utf8 : string -> string) (update : Update)
      (rest : list Update) (branch : string) (changes : Changes) (w : World) :
  getChangeSet_loop host base64_to_utf8 (update :: rest) branch changes w
  = match read_update host base64_to_utf8 update branch w with
    | (Ok Skip, w1) =>
        getChangeSet_loop host base64_to_utf8 rest branch changes w1
    | (Ok NoContent, w1) =>
        getChangeSet_loop host base64_to_utf8 rest branch
                          (stage update None changes) w1
    | (Ok (Content c), w1) =>
        getChangeSet_loop host base64_to_utf8 rest branch
                          (stage update (Some (base64_to_utf8 (fc_content c)))
                                 changes) w1
    | (Throw e, w1) => (Throw e, w1)
    | (OutOfFuel, w1) => (OutOfFuel, w1)
    end.
Proof.
  cbn [getChangeSet_loop]. unfold bind, stage.
  destruct (read_update host base64_to_utf8 update branch w) as [[r|e|] w1];
    [| reflexivity | reflexivity].
  destruct r as [c| |]; [| | reflexivity].
  - destruct (Js.truthy (updateContent update _)); reflexivity.
  - destruct (Js.truthy (updateContent update _)); reflexivity.
Qed.

Lemma getChangeSet_loop_ok (host : Host) (base64_to_utf8 : string -> string)
      (all : list Update) (branch : string) (updates : list Update) :
  (forall u, In u updates -> In u all) ->
  forall (changes changes' : Changes) (w w' : World),
    change_set_ok all changes ->
    getChangeSet_loop host base64_to_utf8 updates branch changes w
    = (Ok changes', w') ->
    change_set_ok all changes'.
Proof.
  induction updates as [|update rest IH]; intros Hsub changes changes' w w' Hok.
  - cbn. intros H. injection H as <- _. exact Hok.
  - rewrite getChangeSet_loop_step.
    assert (Hin : In update all) by (apply Hsub; now left).
    assert (Hrest : forall u, In u rest -> In u all)
      by (intros u Hu; apply Hsub; now right).
    destruct (read_update host base64_to_utf8 update branch w)
      as [[[c| |]|e|] w1]; try discriminate.
    + apply (IH Hrest). now apply stage_ok.
    + apply (IH Hrest). now apply stage_ok.
    + apply (IH Hrest). exact Hok.
Qed.

(** X9: in a change set that [getChangeSet] returns no path occurs twice,
    and every entry has the mode [100644] and a non-empty content that
    the transformation of an update for that very path produced. *)
Theorem getChangeSet_entries_come_from_updates
        (host : Host) (base64_to_utf8 : string -> string)
        (updates : list Update) (branch : string) (w w' : World)
        (changes : Changes) :
  getChangeSet host base64_to_utf8 updates branch w = (Ok changes, w') ->
  NoDup (map fst changes)
  /\ forall path change,
      In (path, change) changes -> staged_from updates path change.
Proof.
  intros Hrun.
  apply (getChangeSet_loop_ok host base64_to_utf8 updates branch updates
                              (fun u H => H) [] changes w w');
    [| exact Hrun].
  split; [constructor | intros path change []].
Qed.

Lemma getChangeSet_entries_witness :
  NoDup (map fst [("CHANGELOG.md", mkFileChange "# Changelog" "100644")])
  /\ staged_from [mkUpdate "package.json" false None (fun _ => Some "{}");
                  Fake.changelog_update]
                 "CHANGELOG.md" (mkFileChange "# Changelog" "100644").
Proof.
  destruct (getChangeSet_entries_come_from_updates
              (Fake.guarded_files 404 []) Fake.identity
              [mkUpdate "package.json" false None (fun _ => Some "{}");
               Fake.changelog_update]
              "main" Fake.start
              (snd (getChangeSet (Fake.guarded_files 404 []) Fake.identity
                                 [mkUpdate "package.json" false None
                                           (fun _ => Some "{}");
                                  Fake.changelog_update]
                                 "main" Fake.start))
              [("CHANGELOG.md", mkFileChange "# Changelog" "100644")]
              eq_refl) as [Hnd Hall].
  split; [exact Hnd |].
  apply Hall. left. reflexivity.
Defined.




Lemma status_404_is_not_403 (err : JsError) :
  status_is err 404 = true -> status_is err 403 = false.
Proof.
  unfold status_is. destruct (err_status err) as [s|]; [| discriminate].
  intros H. apply Z.eqb_eq in H. subst s. reflexivity.
Qed.

Lemma read_update_not_found (host : Host) (base64_to_utf8 : string -> string)
      (update : Update) (branch : string) (w : World) (err : JsError) :
  u_contents update = None ->
  contents_get host (log w) (u_path update) (qualifyRef branch) = inl err ->
  status_is err 404 = true ->
  read_update host base64_to_utf8 update branch w
  = (Ok (if u_create update then NoContent else Skip),
     logged w (contents_request (this w) (u_path update) branch)).
Proof.
  intros Hc Hd Hs. unfold read_update, try_catch, bind. rewrite Hc.
  rewrite getFileContentsOnBranch_run, Hd.
  rewrite (status_404_is_not_403 err Hs), Hs. cbn [negb].
  destruct (u_create update); reflexivity.
Qed.

(** X11: a file that is reported missing (status 404) does not stop
    [getChangeSet].  An update that may not create its file is skipped and
    the remaining updates are processed as if it were not there; an update
    that may create it has its transformation applied to no content, and
    what that yields is staged. *)
Theorem getChangeSet_tolerates_missing_file
        (host : Host) (base64_to_utf8 : string -> string) (update : Update)
        (rest : list Update) (branch : string) (changes : Changes)
        (w : World) (err : JsError) :
  u_contents update = None ->
  contents_get host (log w) (u_path update) (qualifyRef branch) = inl err ->
  status_is err 404 = true ->
  getChangeSet_loop host base64_to_utf8 (update :: rest) branch changes w
  = getChangeSet_loop host base64_to_utf8 rest branch
      (if u_create update then stage update None changes else changes)
      (logged w (contents_request (this w) (u_path update) branch)).
Proof.
  intros Hc Hd Hs. rewrite getChangeSet_loop_step.
  rewrite (read_update_not_found host base64_to_utf8 update branch w err Hc Hd Hs).
  destruct (u_create update); reflexivity.
Qed.

Lemma getChangeSet_tolerates_missing_file_witness :
  fst (getChangeSet (Fake.guarded_files 404 []) Fake.identity
                    [mkUpdate "package.json" false None (fun _ => Some "{}");
                     Fake.changelog_update]
                    "main" Fake.start)
  = Ok [("CHANGELOG.md", mkFileChange "# Changelog" "100644")].
Proof.
  unfold getChangeSet.
  rewrite (getChangeSet_tolerates_missing_file
             (Fake.guarded_files 404 []) Fake.identity
             (mkUpdate "package.json" false None (fun _ => Some "{}"))
             [Fake.changelog_update] "main" [] Fake.start (HttpError 404)
             eq_refl eq_refl eq_refl).
  reflexivity.
Defined.

(** ** The tree-and-blob strategy *)

(** X12: when the contents request is refused with status 403 and the tree
    of the branch has an entry for the path, [getFileContentsOnBranch]
    fetches the blob of the first such entry and returns its sha, its
    content and the decoded content; three requests are sent, in the order
    contents, tree, blob. *)
Theorem getFileContentsOnBranch_reads_blob_after_refusal
        (host : Host) (base64_to_utf8 : string -> string)
        (path branch : string) (w : World) (err : JsError)
        (tree : list TreeEntry) (entry : TreeEntry) (data : FileData) :
  contents_get host (log w) path (qualifyRef branch) = inl err ->
  status_is err 403 = true ->
  tree_get host (log w ++ [contents_request (this w) path branch]) branch
  = inr tree ->
  find (has_path path) tree = Some entry ->
  blob_get host
           (log w ++ [contents_request (this w) path branch;
                      tree_request (this w) branch])
           (te_sha entry)
  = inr data ->
  getFileContentsOnBranch host base64_to_utf8 path branch w
  = (Ok (mkGitHubFileContents (fd_sha data) (fd_content data)
                              (base64_to_utf8 (fd_content data))),
     mkWorld (probotMode w) (this w)
             (log w ++ [contents_request (this w) path branch;
                        tree_request (this w) branch;
                        blob_request (this w) (te_sha entry)])).
Proof.
  intros Hd Hs Ht Hf Hb.
  rewrite getFileContentsOnBranch_run, Hd, Hs.
  unfold getFileContentsWithDataAPI, bind, get_this.
  rewrite (perform_ok _ _ (logged w _) tree Ht).
  unfold has_path in Hf. rewrite Hf.
  unfold perform. cbn [log logged this probotMode].
  change (log w ++ [contents_request (this w) path branch;
                    tree_request (this w) branch])%list
    with (log w ++ ([contents_request (this w) path branch]
                    ++ [tree_request (this w) branch]))%list in Hb.
  rewrite app_assoc in Hb. unfold tree_request in Hb. rewrite Hb.
  unfold ret, blob_request, tree_request.
  rewrite <- !app_assoc. reflexivity.
Qed.

Lemma getFileContentsOnBranch_reads_blob_witness :
  fst (getFileContentsOnBranch
         (Fake.guarded_files 403 [mkTreeEntry "README.md" "r1";
                                  mkTreeEntry "package.json" "p7"])
         Fake.identity "package.json" "main" Fake.start)
  = Ok (mkGitHubFileContents "p7" "p7" "p7").
Proof.
  rewrite (getFileContentsOnBranch_reads_blob_after_refusal
             (Fake.guarded_files 403 [mkTreeEntry "README.md" "r1";
                                      mkTreeEntry "package.json" "p7"])
             Fake.identity "package.json" "main" Fake.start (HttpError 403)
             [mkTreeEntry "README.md" "r1"; mkTreeEntry "package.json" "p7"]
             (mkTreeEntry "package.json" "p7") (mkFileData "p7" "p7")
             eq_refl eq_refl eq_refl eq_refl eq_refl).
  reflexivity.
Defined.

(** ** Opening a new release pull request *)

Lemma find_open_release_none (refName : string) (candidates : list Pull) :
  (forall q, In q candidates ->
             exists hq, pull_head q = Some hq
                        /\ Js.includes refName (ref_ref hq) = false) ->
  find_open_release refName candidates = inr None.
Proof.
  induction candidates as [|q rest IH]; intros Hnone; cbn [find_open_release].
  - reflexivity.
  - destruct (Hnone q (or_introl eq_refl)) as [hq [Hq Hout]].
    rewrite Hq, Hout, andb_false_r.
    apply IH. intros q' Hq'. apply Hnone. now right.
Qed.

(** X13: when none of the open release pulls has a head ref that occurs in
    [refs/heads/<branch>], [openPR] builds the change set, hands it to the
    pull-request collaborator with the default branch as primary branch and
    [force] set, and returns the number the collaborator gives; no pull is
    patched. *)
Theorem openPR_creates_when_no_pull_matches
        (host : Host) (base64_to_utf8 : string -> string) (options : GitHubPR)
        (w w1 w2 : World) (branch : string) (candidates : list Pull)
        (changes : Changes) (prNumber : Z) :
  branch_known w branch ->
  findOpenReleasePRs host (pr_labels options) 100 w = (Ok candidates, w1) ->
  (forall q, In q candidates ->
             exists hq, pull_head q = Some hq
                        /\ Js.includes (ref_name options) (ref_ref hq) = false) ->
  getChangeSet host base64_to_utf8 (pr_updates options) branch w1
  = (Ok changes, w2) ->
  createPullRequest host (log w2) changes
                    (create_options (this w2) options branch)
  = inr prNumber ->
  openPR host base64_to_utf8 options w
  = (Ok prNumber,
     logged w2 (CreatePullRequest changes
                                  (create_options (this w2) options branch)))
  /\ cp_force (create_options (this w2) options branch) = true
  /\ cp_primary (create_options (this w2) options branch) = branch
  /\ cp_description (create_options (this w2) options branch)
     = pr_body options.
Proof.
  intros Hb Hfind Hnone Hchanges Hcreate.
  split; [| repeat split].
  unfold openPR. unfold bind at 1.
  rewrite (getDefaultBranch_known host w branch Hb).
  unfold bind at 1. rewrite Hfind.
  fold (ref_name options).
  rewrite (find_open_release_none _ candidates Hnone).
  unfold bind at 1. rewrite Hchanges.
  unfold bind at 1, get_this at 1. unfold bind at 1.
  fold (create_options (this w2) options branch).
  rewrite (perform_ok _ _ w2 prNumber Hcreate).
  reflexivity.
Qed.

Lemma openPR_creates_witness :
  fst (openPR (Fake.with_pulls_and_tags [] [] []) Fake.identity
              Fake.release_descriptor Fake.start)
  = Ok 1%Z.
Proof.
  destruct (openPR_creates_when_no_pull_matches
              (Fake.with_pulls_and_tags [] [] []) Fake.identity
              Fake.release_descriptor Fake.start
              (logged Fake.start (open_pulls_request Fake.instance 100))
              (logged Fake.start (open_pulls_request Fake.instance 100))
              "main" [] [] 1%Z
              start_branch_known eq_refl
              (fun q (H : In q []) => match H with end)
              eq_refl eq_refl) as [Hrun _].
  rewrite Hrun. reflexivity.
Defined.

(** ** Page fetches: retries that succeed, pages that are not read *)

Lemma logged_times_log (w : World) (c : Call) (n : nat) :
  log (logged_times w c n) = (log w ++ repeat c n)%list.
Proof. reflexivity. Qed.

Lemma repeat_snoc {A} (x : A) (n : nat) :
  (x :: repeat x n = repeat x n ++ [x])%list.
Proof. induction n as [|n IH]; simpl; [reflexivity | now rewrite <- IH]. Qed.

(** X14: a page fetch that meets the status 502 asks again, and when an
    attempt is answered the fetch returns that answer.  This holds after
    any number of failures, not only three: with [k] failures, [k + 1]
    queries are sent. *)
Theorem commitsWith_retries_until_answered
        (host : Host) (query : CommitQuery) (cursor : option string)
        (perPage : nat) (path : option string) (max : nat) (branch : string)
        (response : CommitsResponse) (k : nat) :
  forall (fuel : nat) (w : World),
    branch_known w branch ->
    k < fuel ->
    (forall j, j < k ->
               exists e,
                 graphql_commits
                   host
                   (log w ++ repeat (Graphql (page_query w query cursor perPage
                                                          path max branch)) j)
                   (page_query w query cursor perPage path max branch)
                 = inl e
                 /\ status_is e 502 = true) ->
    graphql_commits
      host
      (log w ++ repeat (Graphql (page_query w query cursor perPage path max
                                            branch)) k)
      (page_query w query cursor perPage path max branch)
    = inr response ->
    commitsWith host query fuel cursor perPage path max 0 w
    = (Ok response,
       logged_times w (Graphql (page_query w query cursor perPage path max
                                           branch)) (S k)).
Proof.
  induction k as [|k IH]; intros fuel w Hb Hfuel Hfail Hok.
  - destruct fuel as [|fuel]; [lia |].
    rewrite (commitsWith_step host query fuel cursor perPage path max 0 w
                              branch Hb).
    cbn zeta. cbn [repeat] in Hok. rewrite app_nil_r in Hok. now rewrite Hok.
  - destruct fuel as [|fuel]; [lia |].
    rewrite (commitsWith_step host query fuel cursor perPage path max 0 w
                              branch Hb).
    cbn zeta.
    destruct (Hfail 0) as [e [He Hs]]; [lia |].
    cbn [repeat] in He. rewrite app_nil_r in He. rewrite He, Hs.
    cbn [andb Nat.ltb Nat.leb fst post_increment].
    set (c := Graphql (page_query w query cursor perPage path max branch)).
    rewrite (IH fuel (logged w c)).
    + unfold logged_times, logged. cbn [log probotMode this].
      rewrite <- app_assoc. reflexivity.
    + exact Hb.
    + lia.
    + intros j Hj. destruct (Hfail (S j)) as [e' [He' Hs']]; [lia |].
      exists e'. split; [| exact Hs'].
      cbn [log logged]. rewrite <- app_assoc. exact He'.
    + cbn [log logged]. rewrite <- app_assoc. exact Hok.
Qed.

Lemma commitsWith_retries_witness :
  fst (commitsWithFiles
         (MoreFake.warming_up 5 (mkCommitsResponse None false [Fake.commit "e5"]))
         6 None 100 None Fake.start)
  = Ok (mkCommitsResponse None false [Fake.commit "e5"]).
Proof.
  unfold commitsWithFiles.
  rewrite (commitsWith_retries_until_answered
             (MoreFake.warming_up 5 (mkCommitsResponse None false [Fake.commit "e5"]))
             QueryCommitsWithFiles None 100 None 64 "main"
             (mkCommitsResponse None false [Fake.commit "e5"]) 5 6 Fake.start
             start_branch_known (le_n 6)).
  - reflexivity.
  - intros j Hj. exists (HttpError 502). split; [| reflexivity].
    cbn [MoreFake.warming_up graphql_commits Fake.start log app].
    rewrite repeat_length.
    destruct (Nat.ltb_spec j 5); [reflexivity | lia].
  - reflexivity.
Defined.

(** The requests of the loop of [commitsSinceSha] over a served history. *)
Lemma commitsSinceSha_loop_requests (host : Host)
      (cursors : nat -> option string) (pages : list (list Commit))
      (fuel : nat) (sha : option string) (perPage : nat) (labels : bool)
      (path : option string) (branch : string) (budget : nat) :
  serves_pages host cursors pages ->
  forall (index : nat) (commits : list Commit) (w : World),
    branch_known w branch ->
    index < length pages \/ index = 0 ->
    length pages < index + budget ->
    length (log (snd (commitsSinceSha_loop host (S fuel) budget sha perPage
                                           labels path commits
                                           (cursors index) w)))
    = length (log w) + pages_read sha (skipn index pages).
Proof.
  intros Hserves.
  induction budget as [|budget IH]; intros index commits w Hb Hidx Hbudget.
  - lia.
  - cbn [commitsSinceSha_loop]. unfold bind at 1.
    destruct (served_fetch host cursors pages fuel labels index perPage path
                           w branch Hserves Hb) as [c [last Hfetch]].
    rewrite Hfetch. rewrite scan_page_spec.
    cbn [resp_commits resp_hasNextPage resp_endCursor].
    assert (Hone : length (log (logged w c)) = length (log w) + 1).
    { cbn [log logged]. now rewrite length_app. }
    destruct (Nat.ltb_spec (S index) (length pages)) as [Hnext|Hlast].
    + rewrite (skipn_nth [] pages index) by lia.
      pose proof (IH (S index) (commits ++ before_boundary sha (nth index pages []))%list
                     (logged w c) Hb (or_introl Hnext)) as Hrest.
      assert (Hlen : length (skipn (S index) pages) <> 0)
        by (rewrite length_skipn; lia).
      destruct (skipn (S index) pages) as [|q rest] eqn:Hskip;
        [contradiction |].
      cbn [pages_read].
      destruct (existsb (is_boundary sha) (nth index pages [])) eqn:Hfound.
      * exact Hone.
      * destruct Hserves as [H0 [Htruthy Hanswer]]. rewrite (Htruthy index).
        cbn [negb orb]. rewrite Hrest by lia. rewrite Hone.
        cbn [pages_read]. lia.
    + assert (Hread : pages_read sha (skipn index pages) = 1).
      { destruct Hidx as [Hlt|Hz].
        - rewrite (skipn_nth [] pages index) by lia.
          rewrite skipn_all2 by lia. cbn [pages_read].
          now destruct (existsb (is_boundary sha) (nth index pages [])).
        - subst index. destruct pages as [|p [|q rest]]; cbn in *;
            [reflexivity | now destruct (existsb (is_boundary sha) p) | lia]. }
      rewrite Hread.
      destruct (existsb (is_boundary sha) (nth index pages [])); exact Hone.
Qed.

Lemma pages_read_bound (sha : option string) (pages : list (list Commit)) :
  1 <= pages_read sha pages <= Nat.max 1 (length pages).
Proof.
  induction pages as [|page rest IH]; cbn [pages_read length].
  - lia.
  - destruct (existsb (is_boundary sha) page); [lia |].
    destruct rest as [|q rest']; [cbn; lia |].
    cbn [length] in *. lia.
Qed.

(** X15: on a served history [commitsSinceSha] sends one query per page up
    to and including the first page that holds a commit with the boundary
    sha, and none for the pages after it; without a boundary on any page it
    sends one query per page. *)
Theorem commitsSinceSha_reads_no_page_after_the_boundary
        (host : Host) (cursors : nat -> option string)
        (pages : list (list Commit)) (fuel : nat) (sha : option string)
        (perPage : nat) (labels : bool) (path : option string) (w : World)
        (branch : string) :
  serves_pages host cursors pages ->
  branch_known w branch ->
  length pages < fuel ->
  length (log (snd (commitsSinceSha host fuel sha perPage labels path w)))
  = length (log w) + pages_read sha pages
  /\ 1 <= pages_read sha pages <= Nat.max 1 (length pages).
Proof.
  intros Hserves Hb Hfuel. split; [| apply pages_read_bound].
  unfold commitsSinceSha. destruct fuel as [|fuel]; [lia |].
  assert (H0 : cursors 0 = None) by apply Hserves.
  rewrite <- H0.
  rewrite (commitsSinceSha_loop_requests host cursors pages fuel sha perPage
             labels path branch (S fuel) Hserves 0 [] w Hb);
    [reflexivity | now right | lia].
Qed.

Lemma commitsSinceSha_reads_no_page_witness :
  length (log (snd (commitsSinceSha
                      (Fake.paged_history
                         [[Fake.commit "e5"; Fake.commit "d4"];
                          [Fake.commit "c3"]; [Fake.commit "b2"]])
                      4 (Some "d4") 100 false None Fake.start)))
  = 1.
Proof.
  destruct (commitsSinceSha_reads_no_page_after_the_boundary
              (Fake.paged_history
                 [[Fake.commit "e5"; Fake.commit "d4"];
                  [Fake.commit "c3"]; [Fake.commit "b2"]])
              Fake.cursor_of
              [[Fake.commit "e5"; Fake.commit "d4"];
               [Fake.commit "c3"]; [Fake.commit "b2"]]
              4 (Some "d4") 100 false None Fake.start "main"
              (paged_history_serves _) start_branch_known (le_n 4))
    as [Hcount _].
  rewrite Hcount. reflexivity.
Defined.

(** X16: the traversal ends with the first page that announces no next
    page or carries no cursor, whatever the other of the two says: the
    commits of that page up to the boundary are returned after one
    query. *)
Theorem commitsSinceSha_stops_without_cursor
        (host : Host) (fuel : nat) (sha : option string) (perPage : nat)
        (labels : bool) (path : option string) (w : World) (branch : string)
        (response : CommitsResponse) :
  branch_known w branch ->
  graphql_commits host (log w)
                  (history_query w labels None perPage path branch)
  = inr response ->
  resp_hasNextPage response = false
  \/ Js.truthy (resp_endCursor response) = false ->
  commitsSinceSha host (S fuel) sha perPage labels path w
  = (Ok (before_boundary sha (resp_commits response)),
     logged w (Graphql (history_query w labels None perPage path branch))).
Proof.
  intros Hb Hanswer Hstop. unfold commitsSinceSha.
  cbn [commitsSinceSha_loop]. unfold bind.
  assert (Hfetch :
            (if labels then commitsWithLabels host (S fuel) None perPage path
             else commitsWithFiles host (S fuel) None perPage path) w
            = (Ok response,
               logged w (Graphql (history_query w labels None perPage path
                                                branch)))).
  { unfold history_query in *. destruct labels.
    - unfold commitsWithLabels.
      rewrite (commitsWith_step _ _ fuel None perPage path 16 0 w branch Hb).
      cbn zeta. now rewrite Hanswer.
    - unfold commitsWithFiles.
      rewrite (commitsWith_step _ _ fuel None perPage path 64 0 w branch Hb).
      cbn zeta. now rewrite Hanswer. }
  rewrite Hfetch, scan_page_spec. cbn [app].
  destruct (existsb (is_boundary sha) (resp_commits response)); [reflexivity |].
  destruct Hstop as [-> | ->]; [reflexivity | now rewrite orb_true_r].
Qed.

Lemma commitsSinceSha_stops_without_cursor_witness :
  fst (commitsSinceSha
         (MoreFake.warming_up 0 (mkCommitsResponse None true [Fake.commit "e5"]))
         1 None 100 false None Fake.start)
  = Ok [Fake.commit "e5"].
Proof.
  rewrite (commitsSinceSha_stops_without_cursor
             (MoreFake.warming_up 0 (mkCommitsResponse None true [Fake.commit "e5"]))
             0 None 100 false None Fake.start "main"
             (mkCommitsResponse None true [Fake.commit "e5"])
             start_branch_known eq_refl (or_intror eq_refl)).
  reflexivity.
Defined.

(** ** Release issues *)

Lemma scan_issues_find (title : string) (data : list Issue) :
  scan_issues title data = find (issue_matches title) data.
Proof.
  induction data as [|issue rest IH]; simpl; [reflexivity |].
  unfold issue_matches at 1. now rewrite IH.
Qed.

Lemma find_app {A} (f : A -> bool) (l1 l2 : list A) :
  find f (l1 ++ l2) = match find f l1 with
                      | Some x => Some x
                      | None => find f l2
                      end.
Proof.
  induction l1 as [|x l1 IH]; simpl; [reflexivity |].
  destruct (f x); [reflexivity | exact IH].
Qed.

(** The loop over pages that are answered, followed by any pages. *)
Lemma issues_loop_answered (opts : EndpointOptions) (title : string)
      (good : list (list Issue)) (rest : list (JsError + list Issue)) :
  forall w,
    fst (issues_loop opts title (answered good ++ rest) w)
    = match find (issue_matches title) (concat good) with
      | Some issue => Ok (Some issue)
      | None =>
          fst (issues_loop opts title rest
                           (logged_times w (Paginate opts) (length good)))
      end.
Proof.
  induction good as [|page good IH]; intros w.
  - cbn. unfold logged_times. cbn. rewrite app_nil_r. now destruct w.
  - cbn [answered map app issues_loop concat]. unfold bind, perform.
    rewrite find_app, scan_issues_find.
    destruct (find (issue_matches title) page) as [issue|]; [reflexivity |].
    fold (answered good). rewrite IH.
    destruct (find (issue_matches title) (concat good)); [reflexivity |].
    unfold logged_times. cbn [log probotMode this length repeat].
    now rewrite <- app_assoc.
Qed.

Lemma findExistingReleaseIssue_run (service : Service) (title : string)
      (labels : list string) (w : World) :
  findExistingReleaseIssue service title labels w
  = match issues_loop (issues_endpoint (probotMode w) (this w) labels) title
                      (issues_list service (log w)) w with
    | (Throw err, w') =>
        (Throw (if status_is err 404 then AuthError else err), w')
    | r => r
    end.
Proof.
  unfold findExistingReleaseIssue, try_catch, bind, get_this, get_probotMode.
  destruct (issues_loop _ title (issues_list service (log w)) w)
    as [[r|err|] w']; try reflexivity.
  unfold throw. destruct (status_is err 404); reflexivity.
Qed.

Lemma fst_findExistingReleaseIssue (service : Service) (title : string)
      (labels : list string) (w : World) :
  fst (findExistingReleaseIssue service title labels w)
  = match fst (issues_loop (issues_endpoint (probotMode w) (this w) labels)
                           title (issues_list service (log w)) w) with
    | Throw err => Throw (if status_is err 404 then AuthError else err)
    | r => r
    end.
Proof.
  rewrite findExistingReleaseIssue_run.
  destruct (issues_loop _ title (issues_list service (log w)) w)
    as [[r|err|] w']; reflexivity.
Qed.

(** X17: [findExistingReleaseIssue] returns the first listed issue that is
    open and whose title contains the given title, and nothing when the
    pages hold no such issue.  The pages are asked for one by one: once an
    issue is found, what the later pages would have answered, even a
    failure, plays no part. *)
Theorem findExistingReleaseIssue_returns_first_open_match
        (service : Service) (title : string) (labels : list string)
        (w : World) (good : list (list Issue))
        (rest : list (JsError + list Issue)) :
  issues_list service (log w) = (answered good ++ rest)%list ->
  (forall issue,
      find (issue_matches title) (concat good) = Some issue ->
      fst (findExistingReleaseIssue service title labels w) = Ok (Some issue)
      /\ Js.includes (issue_title issue) title = true
      /\ issue_state issue = "open")
  /\ (rest = [] ->
      find (issue_matches title) (concat good) = None ->
      fst (findExistingReleaseIssue service title labels w) = Ok None).
Proof.
  intros Hpages. split.
  - intros issue Hfind. split.
    + rewrite fst_findExistingReleaseIssue, Hpages, issues_loop_answered, Hfind.
      reflexivity.
    + apply find_some in Hfind. destruct Hfind as [_ Hm].
      unfold issue_matches in Hm. apply andb_true_iff in Hm.
      destruct Hm as [Hi Hs]. split; [exact Hi | now apply String.eqb_eq].
  - intros -> Hnone.
    rewrite fst_findExistingReleaseIssue, Hpages, issues_loop_answered, Hnone.
    reflexivity.
Qed.

Lemma findExistingReleaseIssue_first_match_witness :
  fst (findExistingReleaseIssue
         (MoreFake.issue_service
            [inr [mkIssue 1 "chore: release 1.0.0" "closed";
                  mkIssue 2 "chore: release 1.1.0" "open"];
             inl (HttpError 500)] "none")
         "chore: release" ["autorelease: pending"] Fake.start)
  = Ok (Some (mkIssue 2 "chore: release 1.1.0" "open")).
Proof.
  apply (proj1 (findExistingReleaseIssue_returns_first_open_match
                  (MoreFake.issue_service
                     [inr [mkIssue 1 "chore: release 1.0.0" "closed";
                           mkIssue 2 "chore: release 1.1.0" "open"];
                      inl (HttpError 500)] "none")
                  "chore: release" ["autorelease: pending"] Fake.start
                  [[mkIssue 1 "chore: release 1.0.0" "closed";
                    mkIssue 2 "chore: release 1.1.0" "open"]]
                  [inl (HttpError 500)] eq_refl)
               (mkIssue 2 "chore: release 1.1.0" "open") eq_refl).
Defined.

(** X18: when a page of the issues listing fails before any issue was
    found, [findExistingReleaseIssue] turns a failure of status 404 into
    the authorization error (status 401, message [unauthorized]) and
    passes a failure of any other status on unchanged. *)
Theorem findExistingReleaseIssue_maps_404_to_AuthError
        (service : Service) (title : string) (labels : list string)
        (w : World) (good : list (list Issue)) (err : JsError)
        (rest : list (JsError + list Issue)) :
  issues_list service (log w) = (answered good ++ inl err :: rest)%list ->
  find (issue_matches title) (concat good) = None ->
  (status_is err 404 = true ->
   fst (findExistingReleaseIssue service title labels w) = Throw AuthError
   /\ err_status AuthError = Some 401%Z)
  /\ (status_is err 404 = false ->
      fst (findExistingReleaseIssue service title labels w) = Throw err).
Proof.
  intros Hpages Hnone.
  assert (Hrun : fst (findExistingReleaseIssue service title labels w)
                 = Throw (if status_is err 404 then AuthError else err)).
  { rewrite fst_findExistingReleaseIssue, Hpages, issues_loop_answered, Hnone.
    reflexivity. }
  split; intros Hs; rewrite Hrun, Hs; [split |]; reflexivity.
Qed.

Lemma findExistingReleaseIssue_maps_404_witness :
  fst (findExistingReleaseIssue
         (MoreFake.issue_service [inl (HttpError 404)] "none")
         "chore: release" ["autorelease: pending"] Fake.start)
  = Throw AuthError.
Proof.
  apply (proj1 (findExistingReleaseIssue_maps_404_to_AuthError
                  (MoreFake.issue_service [inl (HttpError 404)] "none")
                  "chore: release" ["autorelease: pending"] Fake.start
                  [] (HttpError 404) [] eq_refl eq_refl)
               eq_refl).
Defined.

(** ** Removing labels *)

Lemma removeLabels_app (service : Service) (before rest : list string)
      (prNumber : Z) :
  (forall l label, In label before ->
                   label_remove service l prNumber label = inr tt) ->
  forall w,
    removeLabels service (before ++ rest) prNumber w
    = removeLabels service rest prNumber
        (mkWorld (probotMode w) (this w)
                 (log w ++ map (remove_label_request (this w) prNumber) before)).
Proof.
  induction before as [|label before IH]; intros Hok w.
  - cbn. rewrite app_nil_r. now destruct w.
  - cbn [app removeLabels]. unfold bind at 1, get_this at 1. unfold bind at 1.
    rewrite (perform_ok _ _ w tt (Hok (log w) label (or_introl eq_refl))).
    rewrite IH by (intros l lb Hin; apply Hok; now right).
    cbn [log logged this probotMode map]. now rewrite <- app_assoc.
Qed.

(** X19: [removeLabels] sends one [DELETE] request per label, in the order
    of the list.  When every removal succeeds all labels have been asked
    for; when a removal fails the error is passed on at once, the labels
    before it stay removed and the labels after it are never asked for. *)
Theorem removeLabels_stops_at_first_failure
        (service : Service) (before : list string) (prNumber : Z)
        (w : World) :
  (forall l label, In label before ->
                   label_remove service l prNumber label = inr tt) ->
  removeLabels service before prNumber w
  = (Ok tt,
     mkWorld (probotMode w) (this w)
             (log w ++ map (remove_label_request (this w) prNumber) before))
  /\ forall label after err,
      label_remove service
                   (log w ++ map (remove_label_request (this w) prNumber) before)
                   prNumber label
      = inl err ->
      removeLabels service (before ++ label :: after) prNumber w
      = (Throw err,
         mkWorld (probotMode w) (this w)
                 (log w ++ map (remove_label_request (this w) prNumber)
                               (before ++ [label]))).
Proof.
  intros Hok. split.
  - rewrite <- (app_nil_r before) at 1.
    now rewrite (removeLabels_app service before [] prNumber Hok w).
  - intros label after err Hfail.
    rewrite (removeLabels_app service before (label :: after) prNumber Hok w).
    cbn [removeLabels]. unfold bind at 1, get_this at 1. unfold bind at 1.
    unfold perform. cbn [log this probotMode]. rewrite Hfail.
    rewrite map_app. cbn [map]. now rewrite <- app_assoc.
Qed.

Lemma removeLabels_stops_witness :
  fst (removeLabels (MoreFake.issue_service [] "autorelease: tagged")
                    ["autorelease: pending"; "autorelease: tagged";
                     "release-please"]
                    7 Fake.start)
  = Throw (HttpError 404)
  /\ length (log (snd (removeLabels
                         (MoreFake.issue_service [] "autorelease: tagged")
                         ["autorelease: pending"; "autorelease: tagged";
                          "release-please"]
                         7 Fake.start))) = 2.
Proof.
  destruct (removeLabels_stops_at_first_failure
              (MoreFake.issue_service [] "autorelease: tagged")
              ["autorelease: pending"] 7 Fake.start) as [_ Hfail].
  - intros l label [<- | []]. reflexivity.
  - pose proof (Hfail "autorelease: tagged" ["release-please"]
                      (HttpError 404) eq_refl) as Hrun.
    cbn [app] in Hrun. rewrite Hrun. split; reflexivity.
Defined.

(** ** The release branch pattern *)

Lemma string_length_app (s1 s2 : string) :
  String.length (s1 ++ s2) = String.length s1 + String.length s2.
Proof. induction s1 as [|c s1 IH]; simpl; [reflexivity | now rewrite IH]. Qed.

Lemma substring_prefix_app (s1 s2 : string) :
  String.substring 0 (String.length s1) (s1 ++ s2) = s1.
Proof.
  induction s1 as [|c s1 IH]; simpl.
  - destruct s2; reflexivity.
  - now rewrite IH.
Qed.

Lemma consumed_app (s1 s2 : string) : Regex.consumed (s1 ++ s2) s2 = s1.
Proof.
  unfold Regex.consumed. rewrite string_length_app.
  replace (String.length s1 + String.length s2 - String.length s2)
    with (String.length s1) by lia.
  apply substring_prefix_app.
Qed.

Lemma consumed_all (s : string) : Regex.consumed s EmptyString = s.
Proof.
  unfold Regex.consumed. cbn [String.length]. rewrite Nat.sub_0_r.
  induction s as [|c s IH]; simpl; [reflexivity | now rewrite IH].
Qed.

Lemma prefix_drop (l s : string) :
  String.prefix l s = true -> s = l ++ Js.drop (String.length l) s.
Proof.
  revert s. induction l as [|c l IH]; intros s H.
  - reflexivity.
  - destruct s as [|d s]; [discriminate |].
    simpl in H. destruct (ascii_dec c d) as [-> |]; [| discriminate].
    simpl. f_equal. now apply IH.
Qed.

Lemma star_sound (p : ascii -> bool) (s : string)
      (k : string -> option Regex.captures) (r : Regex.captures) :
  Regex.star p s k = Some r ->
  exists s1 s2, s = s1 ++ s2 /\ Js.all_chars p s1 = true /\ k s2 = Some r.
Proof.
  induction s as [|c s IH]; simpl.
  - intros H. exists EmptyString, EmptyString. now repeat split.
  - destruct (p c) eqn:Hp.
    + destruct (Regex.star p s k) as [r'|] eqn:Hstar.
      * intros H. injection H as ->.
        destruct (IH eq_refl) as [s1 [s2 [-> [Hall Hk]]]].
        exists (String c s1), s2. simpl. rewrite Hp. now repeat split.
      * intros H. exists EmptyString, (String c s). now repeat split.
    + intros H. exists EmptyString, (String c s). now repeat split.
Qed.

Lemma string_app_assoc (a b c : string) : (a ++ b) ++ c = a ++ (b ++ c).
Proof. induction a as [|x a IH]; simpl; [reflexivity | now rewrite IH]. Qed.

(** X20: whenever the head label of a pull matches the release branch
    pattern, the label is some text without a line break, [:release], at
    most one further [-], the package, a [-] and the version; the package
    holds only letters, digits, [_], [-] and [.], and the version starts
    with [v] and a digit and runs to the end of the label. *)
Theorem match_branch_decomposes_label (label package version : string) :
  match_branch label = Some (package, version) ->
  exists lead dash d rest,
    label = lead ++ ":release" ++ dash ++ package ++ "-" ++ version
    /\ (dash = EmptyString \/ dash = "-")
    /\ Js.all_chars Js.is_dot lead = true
    /\ Js.all_chars branch_class package = true
    /\ version = String "v" (String d rest)
    /\ Js.is_digit d = true
    /\ Js.all_chars Js.is_dot rest = true.
Proof.
  unfold match_branch, Regex.match_anchored, VERSION_FROM_BRANCH_RE.
  cbn [Regex.seq Regex.exec].
  destruct (Regex.star _ label _) as [caps|] eqn:Hexec; [| discriminate].
  intros Hcaps.
  apply star_sound in Hexec.
  destruct Hexec as (lead & s1 & -> & Hlead & Hk).
  destruct (String.prefix ":release" s1) eqn:Hrel; [| discriminate].
  apply prefix_drop in Hrel.
  set (s2 := Js.drop (String.length ":release") s1) in *.
  assert (Hbody :
            forall s3,
              Regex.star
                branch_class s3
                (fun s' =>
                   if String.prefix "-" s'
                   then
                     if String.prefix "v" (Js.drop (String.length "-") s')
                     then
                       match Js.drop (String.length "v")
                                     (Js.drop (String.length "-") s') with
                       | String c s'0 =>
                           if Js.is_digit c
                           then
                             Regex.star
                               Js.is_dot s'0
                               (fun s'1 =>
                                  match s'1 with
                                  | EmptyString =>
                                      Some (([] ++ [Regex.consumed s3 s'])%list
                                            ++ [Regex.consumed
                                                  (Js.drop (String.length "-") s')
                                                  s'1])%list
                                  | String _ _ => None
                                  end)
                           else None
                       | EmptyString => None
                       end
                     else None
                   else None)
              = Some caps ->
              exists d rest,
                s3 = package ++ "-" ++ version
                /\ Js.all_chars branch_class package = true
                /\ version = String "v" (String d rest)
                /\ Js.is_digit d = true
                /\ Js.all_chars Js.is_dot rest = true).
  { intros s3 Hstar. apply star_sound in Hstar.
    destruct Hstar as (pkg & s4 & -> & Hpkg & Hk4).
    destruct (String.prefix "-" s4) eqn:Hdash; [| discriminate].
    apply prefix_drop in Hdash.
    set (s5 := Js.drop (String.length "-") s4) in *.
    destruct (String.prefix "v" s5) eqn:Hv; [| discriminate].
    apply prefix_drop in Hv.
    destruct (Js.drop (String.length "v") s5) as [|d s6] eqn:Hs6;
      [discriminate |].
    destruct (Js.is_digit d) eqn:Hd; [| discriminate].
    apply star_sound in Hk4.
    destruct Hk4 as (rest & s7 & -> & Hrest & Hend).
    destruct s7 as [|c7 s7]; [| discriminate].
    injection Hend as <-.
    assert (Hrest_nil : rest ++ EmptyString = rest)
      by (clear; induction rest as [|c r IH]; simpl; [reflexivity | now rewrite IH]).
    rewrite Hrest_nil in *.
    assert (Hs5 : s5 = String "v" (String d rest)) by (rewrite Hv; reflexivity).
    rewrite Hdash, consumed_app in Hcaps.
    rewrite consumed_all in Hcaps.
    cbn [app] in Hcaps. injection Hcaps as <- <-.
    exists d, rest. rewrite Hdash. now repeat split. }
  destruct (String.prefix "-" s2) eqn:Hopt.
  - destruct (Regex.star branch_class (Js.drop (String.length "-") s2) _)
      as [c1|] eqn:Hfirst.
    + injection Hk as ->.
      destruct (Hbody _ Hfirst) as (d & rest & Hs3 & Hpkg & Hver & Hd & Hrest).
      apply prefix_drop in Hopt.
      exists lead, "-", d, rest.
      split; [| now repeat split; try (now right)].
      rewrite Hrel. fold s2. rewrite Hopt, Hs3. reflexivity.
    + destruct (Hbody _ Hk) as (d & rest & Hs3 & Hpkg & Hver & Hd & Hrest).
      exists lead, EmptyString, d, rest.
      split; [| now repeat split; try (now left)].
      rewrite Hrel. fold s2. rewrite Hs3. reflexivity.
  - destruct (Hbody _ Hk) as (d & rest & Hs3 & Hpkg & Hver & Hd & Hrest).
    exists lead, EmptyString, d, rest.
    split; [| now repeat split; try (now left)].
    rewrite Hrel. fold s2. rewrite Hs3. reflexivity.
Qed.

Lemma match_branch_decomposes_witness :
  exists lead dash d rest,
    "owner:release-mypkg-v1.2.3"
    = lead ++ ":release" ++ dash ++ "mypkg" ++ "-" ++ "v1.2.3"
    /\ (dash = EmptyString \/ dash = "-")
    /\ Js.all_chars Js.is_dot lead = true
    /\ Js.all_chars branch_class "mypkg" = true
    /\ "v1.2.3" = String "v" (String d rest)
    /\ Js.is_digit d = true
    /\ Js.all_chars Js.is_dot rest = true.
Proof.
  apply (match_branch_decomposes_label "owner:release-mypkg-v1.2.3" "mypkg"
                                       "v1.2.3").
  vm_compute. reflexivity.
Defined.

(** ** What the tag fallback can return *)






(** ** Reading a file of the default branch *)

(** X22: on an instance whose default branch is not resolved,
    [getFileContents] first asks for the repository, then reads the file on
    the branch it was told, qualified as [refs/heads/<branch>] when the
    name holds no [/]; the branch stays stored in the instance. *)
Theorem getFileContents_resolves_branch_first
        (host : Host) (base64_to_utf8 : string -> string) (path : string)
        (w : World) (branch : string) (data : FileData) :
  Js.truthy (defaultBranch (this w)) = false ->
  repos_get host (log w) = inr branch ->
  branch <> EmptyString ->
  contents_get host (log w ++ [ReposGet (authorization (this w))]) path
               (qualifyRef branch)
  = inr data ->
  exists w2,
    getFileContents host base64_to_utf8 path w
    = (Ok (mkGitHubFileContents (fd_sha data) (fd_content data)
                                (base64_to_utf8 (fd_content data))),
       w2)
    /\ defaultBranch (this w2) = Some branch
    /\ exists request,
        log w2 = (log w ++ [ReposGet (authorization (this w)); request])%list
        /\ mutating request = false.
Proof.
  intros Hunset Hget Hne Hdata.
  destruct (getDefaultBranch_resolved host w branch Hunset Hget Hne)
    as (w1 & Hrun & Hlog & Hbranch).
  unfold getFileContents, bind. rewrite Hrun.
  rewrite getFileContentsOnBranch_run, Hlog, Hdata.
  eexists. split; [reflexivity |]. split; [exact Hbranch |].
  eexists. split.
  - cbn [log logged]. rewrite Hlog, <- app_assoc. reflexivity.
  - reflexivity.
Qed.

Lemma getFileContents_resolves_branch_witness :
  exists w2,
    getFileContents
      (mkHost (fun _ => inr "trunk") (fun _ _ => Fake.refused)
              (fun _ _ => Fake.refused) (fun _ => Fake.refused)
              (fun _ _ ref => if String.eqb ref "refs/heads/trunk"
                              then inr (mkFileData "e30=" "f1")
                              else Fake.refused)
              (fun _ _ => Fake.refused) (fun _ _ => Fake.refused)
              (fun _ _ => Fake.refused) (fun _ _ _ => Fake.refused))
      Fake.identity "package.json"
      (mkWorld false (fst (constructor
                             (mkGitHubOptions None (Some "t0k3n") "owner" "repo"
                                              None None None) false)) [])
    = (Ok (mkGitHubFileContents "f1" "e30=" "e30="), w2)
    /\ defaultBranch (this w2) = Some "trunk".
Proof.
  destruct (getFileContents_resolves_branch_first
              (mkHost (fun _ => inr "trunk") (fun _ _ => Fake.refused)
                      (fun _ _ => Fake.refused) (fun _ => Fake.refused)
                      (fun _ _ ref => if String.eqb ref "refs/heads/trunk"
                                      then inr (mkFileData "e30=" "f1")
                                      else Fake.refused)
                      (fun _ _ => Fake.refused) (fun _ _ => Fake.refused)
                      (fun _ _ => Fake.refused) (fun _ _ _ => Fake.refused))
              Fake.identity "package.json"
              (mkWorld false (fst (constructor
                             (mkGitHubOptions None (Some "t0k3n") "owner" "repo"
                                              None None None) false)) [])
              "trunk" (mkFileData "e30=" "f1") eq_refl eq_refl)
    as (w2 & Hrun & Hbranch & _).
  - discriminate.
  - reflexivity.
  - exists w2. split; [exact Hrun | exact Hbranch].
Defined.
